(** * A user service over a document store: models.py and main.py

    The development embeds the two source files of the service:

    - [models.py]: the enumerations [Gender] and [Role] and the pydantic
      model [User], with the validation pydantic performs when a [User] is
      built from parsed JSON or from a stored document;
    - [main.py]: the five request handlers, written in a small state and
      exception monad over the database handle [app.mongodb], together with
      the routes FastAPI builds around them (matching of the path
      parameter and request-body validation before the handler,
      [response_model] validation after it).

    The document store is the collaborator the handlers talk to.  Its five
    operations ([insert_one], [find_one], [find], [update_one],
    [delete_one]) are modelled on an ordered list of documents per
    collection: a collection is read in natural order, an insert appends.
    The driver refuses an update that carries an integer beyond 64 bits;
    apart from that a driver call is assumed to complete: loss of the
    connection is outside the model. *)

From Stdlib Require Import ZArith NArith Ascii String List Bool Lia.
From stdpp Require Import base option list strings gmap.

Local Open Scope string_scope.
Local Open Scope Z_scope.
Local Set Warnings "-register-all".

(** ** Values

    What [json.loads] produces for a request body and what a stored
    document holds: Python's [None], [bool], [int], [float] (kept as the
    64 bits of the double), [str], [list], [dict] (an association list in
    insertion order, the first binding of a key is the one a lookup sees)
    and the store's [ObjectId] (12 bytes, kept as a number).  The types
    of the store that the service neither writes nor reads (dates, binary
    data and the like) are left out. *)

Inductive value : Type :=
| VNone
| VBool (b : bool)
| VInt (z : Z)
| VFloat (bits : Z)
| VStr (s : string)
| VList (l : list value)
| VDict (d : list (string * value))
| VObjectId (oid : N).

Abbreviation document := (list (string * value)).

(** [d.get(k)] *)
Fixpoint dict_get (k : string) (d : document) : option value :=
  match d with
  | [] => None
  | (k', v) :: rest => if String.eqb k k' then Some v else dict_get k rest
  end.

(** [d[k] = v]: an existing key keeps its place, a new key goes last. *)
Fixpoint dict_set (k : string) (v : value) (d : document) : document :=
  match d with
  | [] => [(k, v)]
  | (k', v') :: rest =>
      if String.eqb k k' then (k', v) :: rest else (k', v') :: dict_set k v rest
  end.

(** Structural equality of values. *)
Fixpoint value_eqb (a b : value) {struct a} : bool :=
  match a, b with
  | VNone, VNone => true
  | VBool x, VBool y => Bool.eqb x y
  | VInt x, VInt y => Z.eqb x y
  | VFloat x, VFloat y => Z.eqb x y
  | VStr x, VStr y => String.eqb x y
  | VList l1, VList l2 =>
      (fix go (l1 l2 : list value) {struct l1} : bool :=
         match l1, l2 with
         | [], [] => true
         | x :: l1', y :: l2' => value_eqb x y && go l1' l2'
         | _, _ => false
         end) l1 l2
  | VDict d1, VDict d2 =>
      (fix go (d1 d2 : document) {struct d1} : bool :=
         match d1, d2 with
         | [], [] => true
         | (k1, x) :: d1', (k2, y) :: d2' =>
             String.eqb k1 k2 && value_eqb x y && go d1' d2'
         | _, _ => false
         end) d1 d2
  | VObjectId x, VObjectId y => N.eqb x y
  | _, _ => false
  end.

Definition document_eqb (d1 d2 : document) : bool :=
  value_eqb (VDict d1) (VDict d2).

(** ** models.py *)

Module Models.

Inductive Gender : Type := male | female.

Inductive Role : Type := admin | user | student | teacher.

Record User : Type := mkUser {
  first_name : string;
  last_name : string;
  middle_name : option string;
  gender : Gender;
  email_address : string;
  phone_number : string;
  roles : list Role
}.

(** The [str] value of an enumeration member. *)
Definition Gender_value (g : Gender) : string :=
  match g with male => "male" | female => "female" end.

Definition Role_value (r : Role) : string :=
  match r with
  | admin => "admin" | user => "user"
  | student => "student" | teacher => "teacher"
  end.

(** Validation of one field.  A [str] field takes a string and nothing
    else; an enumeration field takes a string that is the value of one of
    its members; [Optional[str]] also takes [None]; [List[T]] takes a
    list whose every element is a [T]. *)
Definition validate_str (v : value) : option string :=
  match v with VStr s => Some s | _ => None end.

Definition validate_optional_str (v : value) : option (option string) :=
  match v with
  | VNone => Some None
  | VStr s => Some (Some s)
  | _ => None
  end.

Definition validate_Gender (v : value) : option Gender :=
  match v with
  | VStr s =>
      if String.eqb s "male" then Some male
      else if String.eqb s "female" then Some female
      else None
  | _ => None
  end.

Definition validate_Role (v : value) : option Role :=
  match v with
  | VStr s =>
      if String.eqb s "admin" then Some admin
      else if String.eqb s "user" then Some user
      else if String.eqb s "student" then Some student
      else if String.eqb s "teacher" then Some teacher
      else None
  | _ => None
  end.

Fixpoint validate_each {A : Type} (f : value -> option A) (l : list value)
  : option (list A) :=
  match l with
  | [] => Some []
  | v :: rest =>
      match f v, validate_each f rest with
      | Some a, Some r => Some (a :: r)
      | _, _ => None
      end
  end.

Definition validate_list {A : Type} (f : value -> option A) (v : value)
  : option (list A) :=
  match v with VList l => validate_each f l | _ => None end.

(** A required field: the key must be there and its value must validate. *)
Definition required {A : Type} (f : value -> option A) (o : option value)
  : option A :=
  match o with Some v => f v | None => None end.

(** A field with a default: a missing key gives the default. *)
Definition with_default {A : Type} (f : value -> option A) (dflt : A)
  (o : option value) : option A :=
  match o with Some v => f v | None => Some dflt end.

(** The fields of a [User] read through a getter: the keys of a dict, or
    the attributes of an object (pydantic's [from_attributes]).  Keys the
    model does not declare are ignored. *)
Definition User_from (get : string -> option value) : option User :=
  match required validate_str (get "first_name"),
        required validate_str (get "last_name"),
        with_default validate_optional_str None (get "middle_name"),
        required validate_Gender (get "gender"),
        required validate_str (get "email_address"),
        required validate_str (get "phone_number"),
        required (validate_list validate_Role) (get "roles") with
  | Some fn, Some ln, Some mn, Some g, Some e, Some p, Some rs =>
      Some (mkUser fn ln mn g e p rs)
  | _, _, _, _, _, _, _ => None
  end.

(** [User.model_validate(v)] for a parsed JSON value or a document. *)
Definition User_validate (v : value) : option User :=
  match v with
  | VDict d => User_from (fun k => dict_get k d)
  | _ => None
  end.

(** [user.model_dump()]: the seven declared fields in declaration order;
    an enumeration member is its string. *)
Definition model_dump (u : User) : document :=
  [ ("first_name", VStr (first_name u));
    ("last_name", VStr (last_name u));
    ("middle_name", match middle_name u with
                    | Some s => VStr s
                    | None => VNone
                    end);
    ("gender", VStr (Gender_value (gender u)));
    ("email_address", VStr (email_address u));
    ("phone_number", VStr (phone_number u));
    ("roles", VList (map (fun r => VStr (Role_value r)) (roles u))) ].

End Models.

(** ** The handler monad

    A handler runs against the world it shares with the store: the
    database handle [app.mongodb] (collections by name), the counter the
    driver draws the next [ObjectId] from, and the record of the gateway
    calls made so far.  It returns a value or raises: [HTTPException] in
    the handlers, [OverflowError] in the driver. *)

Inductive method : Type := InsertOne | FindOne | Find | UpdateOne | DeleteOne.

Record call : Type := mkCall { call_collection : string; call_method : method }.

Record world : Type := mkWorld {
  mongodb : gmap string (list document);
  next_oid : N;
  calls : list call
}.

Inductive exn : Type :=
| HTTPException (status_code : Z) (detail : string)
| OverflowError.

Inductive outcome (A : Type) : Type :=
| Return (a : A)
| Raise (e : exn).

Arguments Return {A} a.
Arguments Raise {A} e.

Definition M (A : Type) : Type := world -> outcome A * world.

Definition ret {A : Type} (a : A) : M A := fun w => (Return a, w).

Definition raise {A : Type} (e : exn) : M A := fun w => (Raise e, w).

Definition bind {A B : Type} (m : M A) (k : A -> M B) : M B :=
  fun w =>
    match m w with
    | (Return a, w') => k a w'
    | (Raise e, w') => (Raise e, w')
    end.

Notation "'let*' x ':=' m 'in' k" := (bind m (fun x => k))
  (at level 10, x name, m at level 100, k at level 200).

(** ** The document store *)

Module Mongo.

Record InsertOneResult : Type := mkInsertOneResult { inserted_id : value }.

Record UpdateResult : Type := mkUpdateResult {
  acknowledged : bool;
  matched_count : Z;
  modified_count : Z;
  upserted_id : value
}.

Record DeleteResult : Type := mkDeleteResult { deleted_count : Z }.

(** A query [{k: q}] selects a document whose field [k] is [q], or is an
    array with [q] among its elements; a document without the field is
    selected by [{k: None}] only. *)
Definition field_matches (q v : value) : bool :=
  value_eqb v q
  || match v with
     | VList l => existsb (fun x => value_eqb x q) l
     | _ => false
     end.

Definition matches (query doc : document) : bool :=
  forallb (fun kq =>
             match dict_get (fst kq) doc with
             | Some v => field_matches (snd kq) v
             | None => value_eqb (snd kq) VNone
             end) query.

(** [{"$set": fields}] applied to one document; with no field it changes
    nothing. *)
Definition apply_set (fields doc : document) : document :=
  fold_left (fun acc kv => dict_set (fst kv) (snd kv) acc) fields doc.

Definition apply_update (update doc : document) : document :=
  match dict_get "$set" update with
  | Some (VDict fields) => apply_set fields doc
  | _ => doc
  end.

(** The first document the query selects is updated; it counts as
    modified when the update changed it. *)
Fixpoint update_first (query update : document) (docs : list document)
  : list document * UpdateResult :=
  match docs with
  | [] => ([], mkUpdateResult true 0 0 VNone)
  | d :: rest =>
      if matches query d then
        let d' := apply_update update d in
        (d' :: rest,
         mkUpdateResult true 1 (if document_eqb d' d then 0 else 1) VNone)
      else
        let (rest', r) := update_first query update rest in
        (d :: rest', r)
  end.

(** The first document the query selects is removed. *)
Fixpoint delete_first (query : document) (docs : list document)
  : list document * DeleteResult :=
  match docs with
  | [] => ([], mkDeleteResult 0)
  | d :: rest =>
      if matches query d then (rest, mkDeleteResult 1)
      else
        let (rest', r) := delete_first query rest in
        (d :: rest', r)
  end.

(** The documents of a collection; a name never written to has none. *)
Definition collection (name : string) (w : world) : list document :=
  default [] (mongodb w !! name).

Definition logged (name : string) (m : method) (w : world) : list call :=
  (calls w ++ [mkCall name m])%list.

(** [insert_one]: a document without [_id] is given a new [ObjectId],
    put in front of its fields, and the document goes last in the
    collection. *)
Definition insert_one (name : string) (doc : document) : M InsertOneResult :=
  fun w =>
    match dict_get "_id" doc with
    | Some id =>
        (Return (mkInsertOneResult id),
         mkWorld (<[name := (collection name w ++ [doc])%list]> (mongodb w))
                 (next_oid w) (logged name InsertOne w))
    | None =>
        let id := VObjectId (next_oid w) in
        (Return (mkInsertOneResult id),
         mkWorld (<[name := (collection name w ++ [("_id", id) :: doc])%list]>
                    (mongodb w))
                 (N.succ (next_oid w)) (logged name InsertOne w))
    end.

(** [find_one]: the first selected document, or [None]. *)
Definition find_one (name : string) (query : document)
  : M (option document) :=
  fun w =>
    (Return (List.find (matches query) (collection name w)),
     mkWorld (mongodb w) (next_oid w) (logged name FindOne w)).

(** [find(query).to_list(None)]: every selected document. *)
Definition find (name : string) (query : document) : M (list document) :=
  fun w =>
    (Return (List.filter (matches query) (collection name w)),
     mkWorld (mongodb w) (next_oid w) (logged name Find w)).

(** What the driver can encode: an [int] has to fit in 64 bits, signed. *)
Definition int64 (z : Z) : bool := (- 2 ^ 63 <=? z) && (z <? 2 ^ 63).

Fixpoint bson_encodable (v : value) : bool :=
  match v with
  | VInt z => int64 z
  | VList l => forallb bson_encodable l
  | VDict d =>
      (fix go (d : document) : bool :=
         match d with
         | [] => true
         | (_, x) :: rest => bson_encodable x && go rest
         end) d
  | _ => true
  end.

(** [update_one]: the driver encodes the query and the update before it
    sends anything and raises [OverflowError] on an integer it cannot
    encode; a collection that does not exist is not created. *)
Definition update_one (name : string) (query update : document)
  : M UpdateResult :=
  fun w =>
    if bson_encodable (VDict query) && bson_encodable (VDict update) then
      match mongodb w !! name with
      | Some docs =>
          let (docs', r) := update_first query update docs in
          (Return r,
           mkWorld (<[name := docs']> (mongodb w)) (next_oid w)
                   (logged name UpdateOne w))
      | None =>
          (Return (mkUpdateResult true 0 0 VNone),
           mkWorld (mongodb w) (next_oid w) (logged name UpdateOne w))
      end
    else
      (Raise OverflowError,
       mkWorld (mongodb w) (next_oid w) (logged name UpdateOne w)).

(** [delete_one]; a collection that does not exist is not created. *)
Definition delete_one (name : string) (query : document) : M DeleteResult :=
  fun w =>
    match mongodb w !! name with
    | Some docs =>
        let (docs', r) := delete_first query docs in
        (Return r,
         mkWorld (<[name := docs']> (mongodb w)) (next_oid w)
                 (logged name DeleteOne w))
    | None =>
        (Return (mkDeleteResult 0),
         mkWorld (mongodb w) (next_oid w) (logged name DeleteOne w))
    end.

End Mongo.

(** ** What FastAPI does around a handler *)

Module FastAPI.

Import Models.

(** The response a client gets: a JSON response with a status and a
    body; 422 when the request body does not validate (the list of
    offending fields in its body is not modelled); 500 when the value the
    handler returned does not validate against the route's
    [response_model], or when the handler let an exception other than
    [HTTPException] through; 307 when the router redirects to the path
    without its trailing slashes (the location is kept as that path). *)
Inductive Response : Type :=
| JSONResponse (status : Z) (content : value)
| RequestValidationError
| InternalServerError
| RedirectResponse (location : string).

Definition status_of (r : Response) : Z :=
  match r with
  | JSONResponse s _ => s
  | RequestValidationError => 422
  | InternalServerError => 500
  | RedirectResponse _ => 307
  end.

(** The handler's value goes through the response model; a raised
    [HTTPException] becomes a response with its status and
    [{"detail": detail}]; any other exception becomes a 500. *)
Definition respond {A : Type} (response_model : A -> option value)
  (handler : M A) : world -> Response * world :=
  fun w =>
    match handler w with
    | (Return a, w') =>
        (match response_model a with
         | Some content => JSONResponse 200 content
         | None => InternalServerError
         end, w')
    | (Raise (HTTPException s d), w') =>
        (JSONResponse s (VDict [("detail", VStr d)]), w')
    | (Raise OverflowError, w') => (InternalServerError, w')
    end.

(** A path parameter such as [{email_address}] takes one segment of the
    path: a string that is not empty and has no ['/'] in it. *)
Fixpoint no_slash (s : string) : bool :=
  match s with
  | EmptyString => true
  | String c rest => negb (Ascii.eqb c "/"%char) && no_slash rest
  end.

Definition path_segment (s : string) : bool :=
  negb (String.eqb s "") && no_slash s.

(** What the router answers when no route takes the path. *)
Definition no_route : Response :=
  JSONResponse 404 (VDict [("detail", VStr "Not Found")]).

(** [s.rstrip("/")] *)
Fixpoint rstrip_slash (s : string) : string :=
  match s with
  | EmptyString => EmptyString
  | String c rest =>
      match rstrip_slash rest with
      | EmptyString =>
          if Ascii.eqb c "/"%char then EmptyString else String c EmptyString
      | kept => String c kept
      end
  end.

(** A path the route does not take: when the path without its trailing
    slashes is one the route takes, the router redirects to it;
    otherwise it answers 404. *)
Definition unrouted (prefix segment : string) : Response :=
  if path_segment (rstrip_slash segment)
  then RedirectResponse (prefix ++ rstrip_slash segment)
  else no_route.

(** A route [prefix{parameter}]: the handler runs when the parameter is a
    path segment; otherwise the route does not take the path and nothing
    runs. *)
Definition routed (prefix segment : string)
  (run : world -> Response * world) : world -> Response * world :=
  fun w =>
    if path_segment segment then run w else (unrouted prefix segment, w).

(** [response_model=User]: the returned value is validated as a [User]
    and the [User] is what is serialised, so a key that is not a field of
    [User] does not reach the body. *)
Definition response_User (v : value) : option value :=
  match User_validate v with
  | Some u => Some (VDict (model_dump u))
  | None => None
  end.

(** [response_model=List[User]] *)
Definition response_List_User (v : value) : option value :=
  match validate_list response_User v with
  | Some l => Some (VList l)
  | None => None
  end.

(** [response_model=dict] *)
Definition response_dict (v : value) : option value :=
  match v with VDict d => Some (VDict d) | _ => None end.

End FastAPI.

(** ** main.py *)

Module Main.

Import Models Mongo FastAPI.

(** What Python hands back for [find_one]'s result. *)
Definition py_optional (o : option document) : value :=
  match o with Some d => VDict d | None => VNone end.

Definition insert_user (user : User) : M value :=
  let* result := insert_one "users" (model_dump user) in
  let* inserted_user := find_one "users" [("_id", inserted_id result)] in
  ret (py_optional inserted_user).

Definition read_users : M value :=
  let* users := find "users" [] in
  ret (VList (map VDict users)).

Definition read_user_by_email (email_address : string) : M value :=
  let* found := find_one "users" [("email_address", VStr email_address)] in
  match found with
  | None => raise (HTTPException 404 "User Not Found")
  | Some d => ret (VDict d)
  end.

(** [UpdateUserDTO]: both fields default to [None]; a field is [Some]
    exactly when the request set it ([None] itself does not validate as
    [List[str]] or [int], so a set field always carries a value). *)
Record UpdateUserDTO : Type := mkUpdateUserDTO {
  other_names : option (list string);
  age : option Z
}.

(** [user_update.model_dump(exclude_unset=True)] *)
Definition model_dump_exclude_unset (user_update : UpdateUserDTO) : document :=
  (match other_names user_update with
   | Some l => [("other_names", VList (map VStr l))]
   | None => []
   end ++
   match age user_update with
   | Some a => [("age", VInt a)]
   | None => []
   end)%list.

Definition update_user (email_address : string) (user_update : UpdateUserDTO)
  : M UpdateResult :=
  let* updated_result :=
    update_one "users" [("email_address", VStr email_address)]
      [("$set", VDict (model_dump_exclude_unset user_update))] in
  if modified_count updated_result =? 0 then
    raise (HTTPException 404 "User not found or no update needed")
  else
    let* updated_user :=
      find_one "users" [("email_address", VStr email_address)] in
    ret updated_result.

Definition delete_user_by_email (email_address : string) : M value :=
  let* delete_result :=
    delete_one "users" [("email_address", VStr email_address)] in
  if deleted_count delete_result =? 0 then
    raise (HTTPException 404 "User Not Found")
  else ret (VDict [("message", VStr "User deleted Successfully")]).

(** The attributes of the [UpdateResult] object [update_user] returns
    (the server's raw reply is left out). *)
Definition UpdateResult_getattr (r : UpdateResult) (name : string)
  : option value :=
  if String.eqb name "acknowledged" then Some (VBool (acknowledged r))
  else if String.eqb name "matched_count" then Some (VInt (matched_count r))
  else if String.eqb name "modified_count" then
    Some (VInt (modified_count r))
  else if String.eqb name "upserted_id" then Some (upserted_id r)
  else None.

(** [response_model=User] on an object that is not a dict: the fields
    are read from its attributes. *)
Definition response_User_from_attributes (r : UpdateResult) : option value :=
  match User_from (UpdateResult_getattr r) with
  | Some u => Some (VDict (model_dump u))
  | None => None
  end.

(** The routes.  [POST /api/v1/create-user] validates the body as a
    [User] before the handler runs. *)
Definition post_create_user (body : value) : world -> Response * world :=
  fun w =>
    match User_validate body with
    | Some u => respond response_User (insert_user u) w
    | None => (RequestValidationError, w)
    end.

Definition get_read_all_users : world -> Response * world :=
  respond response_List_User read_users.

Definition get_read_user (email_address : string)
  : world -> Response * world :=
  routed "/api/v1/read-user/" email_address
    (respond response_User (read_user_by_email email_address)).

(** The patch is taken as it leaves the validation of the request body. *)
Definition put_update_user (email_address : string)
  (user_update : UpdateUserDTO) : world -> Response * world :=
  routed "/api/v1/update-user/" email_address
    (respond response_User_from_attributes
       (update_user email_address user_update)).

Definition delete_delete_user (email_address : string)
  : world -> Response * world :=
  routed "/api/v1/delete-user/" email_address
    (respond response_dict (delete_user_by_email email_address)).

(** [GET /]: no store access, no response model. *)
Definition root : M value :=
  ret (VDict [("message", VStr "FastAPI server is running 🚀")]).

Definition get_root : world -> Response * world :=
  respond (fun v => Some v) root.

(** The requests the application routes, and the route each one takes. *)
Inductive request : Type :=
| POST_create_user (body : value)
| GET_read_all_users
| GET_read_user (email_address : string)
| PUT_update_user (email_address : string) (user_update : UpdateUserDTO)
| DELETE_delete_user (email_address : string)
| GET_root.

Definition serve (r : request) : world -> Response * world :=
  match r with
  | POST_create_user body => post_create_user body
  | GET_read_all_users => get_read_all_users
  | GET_read_user email_address => get_read_user email_address
  | PUT_update_user email_address user_update =>
      put_update_user email_address user_update
  | DELETE_delete_user email_address => delete_delete_user email_address
  | GET_root => get_root
  end.

End Main.

Import Models Mongo FastAPI Main.

(** ** Worlds used in the examples *)

Definition empty_world : world := mkWorld ∅ 0%N [].

Definition ann : User :=
  mkUser "Ann" "Lee" None female "ann@x.com" "555" [student].

Definition bob : User :=
  mkUser "Bob" "Ray" None male "ann@x.com" "777" [teacher].

Definition eve : User :=
  mkUser "Eve" "Kim" (Some "May") female "eve@x.com" "123" [admin; user].

Definition users (w : world) : list document := collection "users" w.

(** ** Vocabulary of the statements *)

(** The query the handlers send for an email. *)
Definition by_email (email : string) : document :=
  [("email_address", VStr email)].

(** The document [insert_user] stores for [u] when the driver draws [oid]. *)
Definition stored (oid : N) (u : User) : document :=
  ("_id", VObjectId oid) :: model_dump u.

(** The identifier the driver draws next is the [_id] of no stored user. *)
Definition oid_fresh (w : world) : bool :=
  forallb (fun d => negb (matches [("_id", VObjectId (next_oid w))] d)) (users w).

(** No stored user is selected by the email. *)
Definition email_free (email : string) (w : world) : bool :=
  forallb (fun d => negb (matches (by_email email) d)) (users w).

(** The body of a 404 response. *)
Definition not_found (detail : string) : Response :=
  JSONResponse 404 (VDict [("detail", VStr detail)]).

(** The world after one user, and after a second one with the same email. *)
Definition world_ann : world := snd (insert_user ann empty_world).

Definition world_ann_bob : world := snd (insert_user bob world_ann).

(** The response to a create carries the identifier in its body (under
    the store's key or under [id]). *)
Definition create_body_has_identifier : Prop :=
  forall (w : world) (body : value) (u : User),
    User_validate body = Some u -> oid_fresh w = true ->
    exists (d : document) (id : value),
      fst (post_create_user body w) = JSONResponse 200 (VDict d) /\
      (dict_get "_id" d = Some id \/ dict_get "id" d = Some id).

(** Whatever the store holds, a create followed by a get on the created
    user's email returns that user's fields and an identifier. *)
Definition create_get_returns_input : Prop :=
  forall (w : world) (u : User),
    oid_fresh w = true ->
    exists (d : document) (id : value),
      fst (read_user_by_email (email_address u) (snd (insert_user u w)))
      = Return (VDict d) /\
      (forall k v, dict_get k (model_dump u) = Some v -> dict_get k d = Some v) /\
      dict_get "_id" d = Some id.

(** A handler that, in every world, makes at most [n] gateway calls, all
    of them on the users collection, and leaves every other collection as
    it was. *)
Definition at_most_calls (n : nat) {A : Type} (h : M A) : Prop :=
  forall w : world,
    exists cs : list call,
      calls (snd (h w)) = (calls w ++ cs)%list /\
      (length cs <= n)%nat /\
      Forall (fun c => call_collection c = "users") cs /\
      (forall name : string,
          name <> "users" -> mongodb (snd (h w)) !! name = mongodb w !! name).

(** The five handlers with a bound each. *)
Definition handlers_within (create list_all get update delete : nat) : Prop :=
  (forall u, at_most_calls create (insert_user u)) /\
  at_most_calls list_all read_users /\
  (forall email, at_most_calls get (read_user_by_email email)) /\
  (forall email p, at_most_calls update (update_user email p)) /\
  (forall email, at_most_calls delete (delete_user_by_email email)).

(** The update document [update_user] sends for a patch. *)
Definition set_fields (p : UpdateUserDTO) : document :=
  [("$set", VDict (model_dump_exclude_unset p))].

(** What the store answers to the update [update_user] sends. *)
Definition update_result (email : string) (p : UpdateUserDTO) (w : world)
  : UpdateResult :=
  snd (update_first (by_email email) (set_fields p) (users w)).

(** A patch that sets the age only. *)
Definition age_30 : UpdateUserDTO := mkUpdateUserDTO None (Some 30).

(** Ann's record once her age has been set. *)
Definition world_ann_30 : world := snd (update_user "ann@x.com" age_30 world_ann).


(** The body of the response to a successful delete. *)
Definition deleted_message : value :=
  VDict [("message", VStr "User deleted Successfully")].

(** Whatever else the store holds, a delete by the email of a stored
    record removes that record, and the email is then unknown. *)
Definition delete_removes_that_record : Prop :=
  forall (w : world) (email : string) (r : document),
    In r (users w) ->
    matches (by_email email) r = true ->
    fst (delete_delete_user email w) = JSONResponse 200 deleted_message /\
    (exists l1 l2, users w = (l1 ++ r :: l2)%list /\
                   users (snd (delete_delete_user email w)) = (l1 ++ l2)%list) /\
    fst (get_read_user email (snd (delete_delete_user email w)))
    = not_found "User Not Found" /\
    fst (delete_delete_user email (snd (delete_delete_user email w)))
    = not_found "User Not Found".

(** One create request per body, in order. *)
Definition create_all (bodies : list value) (w : world) : world :=
  fold_left (fun w body => snd (post_create_user body w)) bodies w.

(** The documents stored for the users [us] when the driver starts at [n]. *)
Fixpoint stored_from (n : N) (us : list User) : list document :=
  match us with
  | [] => []
  | u :: rest => stored n u :: stored_from (N.succ n) rest
  end.

(** The requests of a list served one after the other. *)
Definition serve_all (rs : list request) (w : world) : world :=
  fold_left (fun w r => snd (serve r w)) rs w.

(** The fields [User] declares, and those among them without a default. *)
Definition declared_fields : list string :=
  ["first_name"; "last_name"; "middle_name"; "gender"; "email_address";
   "phone_number"; "roles"].

Definition required_fields : list string :=
  ["first_name"; "last_name"; "gender"; "email_address"; "phone_number";
   "roles"].

(** Two documents that differ at most in the two keys a patch can set. *)
Definition same_but_patch_keys (r r' : document) : Prop :=
  forall k : string,
    k <> "other_names" -> k <> "age" -> dict_get k r' = dict_get k r.

(** The users collection as the service keeps it: every record carries an
    [ObjectId] below the one the driver draws next, no two records share
    their [_id], and every record validates as a [User]. *)
Definition well_stored (w : world) : Prop :=
  Forall (fun d => exists k, dict_get "_id" d = Some (VObjectId k) /\
                             (k < next_oid w)%N) (users w) /\
  NoDup (map (dict_get "_id") (users w)) /\
  Forall (fun d => exists u, User_validate (VDict d) = Some u) (users w).

(** Ann's payload without its gender, and her record beside Eve's. *)
Definition ann_without_gender : document :=
  [("first_name", VStr "Ann"); ("last_name", VStr "Lee");
   ("email_address", VStr "ann@x.com"); ("phone_number", VStr "555");
   ("roles", VList [VStr "student"])].

Definition world_ann_eve : world := snd (insert_user eve world_ann).

(** The age a patch sets, if it sets one, fits in 64 bits: the driver can
    encode the update. *)
Definition age_fits (p : UpdateUserDTO) : bool :=
  match age p with Some a => int64 a | None => true end.

(** A patch whose age is one beyond the largest 64-bit integer. *)
Definition age_huge : UpdateUserDTO := mkUpdateUserDTO None (Some (2 ^ 63)).

(** Whatever the patch, an update on an email that the route takes and
    that selects no record is answered 404 and leaves the users
    collection as it was. *)
Definition update_unknown_always_404 : Prop :=
  forall (w : world) (email : string) (p : UpdateUserDTO),
    email_free email w = true ->
    path_segment email = true ->
    status_of (fst (put_update_user email p w)) = 404 /\
    users (snd (put_update_user email p w)) = users w.



(** * Properties *)

(** Case analysis on every field of a validation. *)
Ltac crush_fields :=
  repeat match goal with
         | |- context [ match ?x with _ => _ end ] => destruct x
         end;
  reflexivity.

(** ** Values and dictionaries *)

Lemma value_eqb_refl (v : value) : value_eqb v v = true.
Proof.
  revert v. fix IH 1. intros [ | b | z | bits | s | l | d | oid ]; simpl.
  - reflexivity.
  - apply Bool.eqb_reflx.
  - apply Z.eqb_refl.
  - apply Z.eqb_refl.
  - apply String.eqb_refl.
  - induction l as [ | x l IHl ]; [ reflexivity | ].
    rewrite (IH x). exact IHl.
  - induction d as [ | [k x] d IHd ]; [ reflexivity | ].
    rewrite String.eqb_refl, (IH x). exact IHd.
  - apply N.eqb_refl.
Qed.

Lemma value_eqb_eq (a b : value) : value_eqb a b = true -> a = b.
Proof.
  revert a b. fix IH 1.
  intros [ | x | x | x | x | l1 | d1 | x ] [ | y | y | y | y | l2 | d2 | y ];
    simpl; try discriminate; intros H.
  - reflexivity.
  - apply Bool.eqb_prop in H. congruence.
  - apply Z.eqb_eq in H. congruence.
  - apply Z.eqb_eq in H. congruence.
  - apply String.eqb_eq in H. congruence.
  - f_equal. revert l2 H.
    induction l1 as [ | a l1 IHl ]; intros [ | b l2 ] H;
      try discriminate; [ reflexivity | ].
    apply andb_prop in H as [Hab Hl].
    f_equal; [ exact (IH a b Hab) | exact (IHl l2 Hl) ].
  - f_equal. revert d2 H.
    induction d1 as [ | [k1 a] d1 IHd ]; intros [ | [k2 b] d2 ] H;
      try discriminate; [ reflexivity | ].
    apply andb_prop in H as [Hab Hd]. apply andb_prop in Hab as [Hk Hab].
    apply String.eqb_eq in Hk.
    f_equal; [ f_equal; [ exact Hk | exact (IH a b Hab) ] | exact (IHd d2 Hd) ].
  - apply N.eqb_eq in H. congruence.
Qed.

Lemma document_eqb_refl (d : document) : document_eqb d d = true.
Proof. apply (value_eqb_refl (VDict d)). Qed.

Lemma dict_get_set_eq (k : string) (v : value) (d : document) :
  dict_get k (dict_set k v d) = Some v.
Proof.
  induction d as [ | [k' v'] d IH ]; simpl.
  - now rewrite String.eqb_refl.
  - destruct (String.eqb k k') eqn:E; simpl; rewrite E; [ reflexivity | exact IH ].
Qed.

Lemma dict_get_set_ne (k k' : string) (v : value) (d : document) :
  k' <> k -> dict_get k' (dict_set k v d) = dict_get k' d.
Proof.
  intros Hne. induction d as [ | [k0 v0] d IH ]; simpl.
  - apply String.eqb_neq in Hne. now rewrite Hne.
  - destruct (String.eqb k k0) eqn:E; simpl.
    + apply String.eqb_eq in E. subst k0.
      apply String.eqb_neq in Hne. now rewrite Hne.
    + now rewrite IH.
Qed.

Lemma dict_set_same (k : string) (v : value) (d : document) :
  dict_get k d = Some v -> dict_set k v d = d.
Proof.
  induction d as [ | [k' v'] d IH ]; simpl; [ discriminate | ].
  destruct (String.eqb k k') eqn:E; intros H.
  - congruence.
  - now rewrite IH.
Qed.

(** ** Validation against the model *)

Lemma validate_Gender_value (g : Gender) :
  validate_Gender (VStr (Gender_value g)) = Some g.
Proof. destruct g; reflexivity. Qed.

Lemma validate_Role_value (r : Role) :
  validate_Role (VStr (Role_value r)) = Some r.
Proof. destruct r; reflexivity. Qed.

Lemma validate_roles_dump (rs : list Role) :
  validate_each validate_Role (map (fun r => VStr (Role_value r)) rs) = Some rs.
Proof.
  induction rs as [ | r rs IH ]; [ reflexivity | ].
  cbn [map validate_each]. now rewrite validate_Role_value, IH.
Qed.

(** A dumped [User] validates back to itself, also once the store has put
    an [_id] in front of its fields. *)
Lemma User_validate_dump (u : User) : User_validate (VDict (model_dump u)) = Some u.
Proof.
  destruct u as [fn ln mn g e p rs].
  unfold User_validate, User_from, model_dump.
  cbn -[validate_Gender validate_each].
  rewrite validate_Gender_value, validate_roles_dump.
  destruct mn; reflexivity.
Qed.

Lemma User_validate_stored (id : value) (u : User) :
  User_validate (VDict (("_id", id) :: model_dump u)) = Some u.
Proof.
  destruct u as [fn ln mn g e p rs].
  unfold User_validate, User_from, model_dump.
  cbn -[validate_Gender validate_each].
  rewrite validate_Gender_value, validate_roles_dump.
  destruct mn; reflexivity.
Qed.

Lemma response_User_stored (oid : N) (u : User) :
  response_User (VDict (stored oid u)) = Some (VDict (model_dump u)).
Proof. unfold response_User, stored. now rewrite User_validate_stored. Qed.

(** ** Running the store *)

Lemma routed_on (prefix segment : string) (run : world -> Response * world)
  (w : world) :
  path_segment segment = true -> routed prefix segment run w = run w.
Proof. intros H. unfold routed. now rewrite H. Qed.

Lemma routed_off (prefix segment : string) (run : world -> Response * world)
  (w : world) :
  path_segment segment = false ->
  routed prefix segment run w = (unrouted prefix segment, w).
Proof. intros H. unfold routed. now rewrite H. Qed.


Lemma respond_world {A : Type} (rm : A -> option value) (h : M A) (w : world) :
  snd (respond rm h w) = snd (h w).
Proof. unfold respond. now destruct (h w) as [[a | [s d | ]] w']. Qed.

Lemma names_encodable (l : list string) :
  forallb bson_encodable (map VStr l) = true.
Proof. induction l as [ | x l IH ]; [ reflexivity | exact IH ]. Qed.

(** The update [update_user] sends can be encoded exactly when the age of
    the patch fits. *)
Lemma update_sendable (email : string) (p : UpdateUserDTO) :
  bson_encodable (VDict [("email_address", VStr email)])
  && bson_encodable (VDict [("$set", VDict (model_dump_exclude_unset p))])
  = age_fits p.
Proof.
  unfold age_fits, model_dump_exclude_unset.
  destruct (other_names p) as [l | ], (age p) as [a | ];
    cbn -[int64 forallb]; rewrite ?names_encodable, ?andb_true_r;
    reflexivity.
Qed.

Lemma find_none_forallb {A : Type} (p : A -> bool) (l : list A) :
  forallb (fun x => negb (p x)) l = true -> List.find p l = None.
Proof.
  induction l as [ | x l IH ]; simpl; [ reflexivity | ].
  destruct (p x); simpl; [ discriminate | exact IH ].
Qed.

Lemma find_app_none {A : Type} (p : A -> bool) (l l' : list A) :
  List.find p l = None -> List.find p (l ++ l') = List.find p l'.
Proof.
  induction l as [ | x l IH ]; simpl; [ reflexivity | ].
  destruct (p x); [ discriminate | exact IH ].
Qed.

Lemma collection_insert (name : string) (docs : list document)
  (m : gmap string (list document)) (n : N) (c : list call) :
  collection name (mkWorld (<[name := docs]> m) n c) = docs.
Proof. unfold collection; simpl. now rewrite lookup_insert_eq. Qed.

Lemma matches_id_stored (oid : N) (u : User) :
  matches [("_id", VObjectId oid)] (stored oid u) = true.
Proof.
  unfold matches, stored, field_matches; simpl. now rewrite N.eqb_refl.
Qed.

Lemma matches_email_stored (oid : N) (u : User) :
  matches (by_email (email_address u)) (stored oid u) = true.
Proof.
  unfold matches, stored, field_matches, by_email; simpl.
  now rewrite String.eqb_refl.
Qed.

(** [insert_user] step by step: one [insert_one], one [find_one]. *)
Lemma insert_user_run (u : User) (w : world) :
  insert_user u w =
  (Return (py_optional
             (List.find (matches [("_id", VObjectId (next_oid w))])
                        (users w ++ [stored (next_oid w) u]))),
   mkWorld (<["users" := (users w ++ [stored (next_oid w) u])%list]> (mongodb w))
           (N.succ (next_oid w))
           (calls w ++ [mkCall "users" InsertOne; mkCall "users" FindOne])).
Proof.
  unfold insert_user, bind, insert_one, find_one, ret, logged; simpl.
  rewrite collection_insert. unfold users, stored.
  now rewrite <- app_assoc.
Qed.

Lemma users_after_insert (u : User) (w : world) :
  users (snd (insert_user u w)) = (users w ++ [stored (next_oid w) u])%list.
Proof. rewrite insert_user_run. apply collection_insert. Qed.

(** ** Create *)

Lemma find_inserted (u : User) (w : world) :
  oid_fresh w = true ->
  List.find (matches [("_id", VObjectId (next_oid w))])
            (users w ++ [stored (next_oid w) u])
  = Some (stored (next_oid w) u).
Proof.
  intros Hfresh. rewrite find_app_none by now apply find_none_forallb.
  cbn [List.find]. now rewrite matches_id_stored.
Qed.

Lemma post_create_user_valid (w : world) (body : value) (u : User) :
  User_validate body = Some u ->
  post_create_user body w = respond response_User (insert_user u) w.
Proof. intros Hv. unfold post_create_user. now rewrite Hv. Qed.

(** C2, as amended: for every valid User payload, the create operation
    appends the record, with the identifier the store assigned, to the
    users collection; the handler returns that stored document, identifier
    included; the response is 200 and its body is the record's seven User
    fields, equal to the payload's, without the identifier, which
    [response_model=User] does not let through. *)
Theorem create_user_stores_and_returns (w : world) (body : value) (u : User) :
  User_validate body = Some u ->
  oid_fresh w = true ->
  fst (insert_user u w) = Return (VDict (stored (next_oid w) u)) /\
  users (snd (post_create_user body w)) = (users w ++ [stored (next_oid w) u])%list /\
  fst (post_create_user body w) = JSONResponse 200 (VDict (model_dump u)) /\
  dict_get "_id" (model_dump u) = None.
Proof.
  intros Hvalid Hfresh.
  rewrite (post_create_user_valid w body u Hvalid).
  unfold respond. rewrite insert_user_run, (find_inserted u w Hfresh).
  cbn [fst snd py_optional]. unfold users at 1. rewrite collection_insert.
  rewrite response_User_stored.
  repeat split; reflexivity.
Qed.

Lemma create_user_stores_and_returns_witness :
  User_validate (VDict (model_dump ann)) = Some ann /\
  oid_fresh empty_world = true /\
  fst (insert_user ann empty_world) = Return (VDict (stored 0 ann)) /\
  users (snd (post_create_user (VDict (model_dump ann)) empty_world))
  = [stored 0 ann] /\
  fst (post_create_user (VDict (model_dump ann)) empty_world)
  = JSONResponse 200 (VDict (model_dump ann)) /\
  dict_get "_id" (model_dump ann) = None.
Proof.
  split; [ reflexivity | ]. split; [ reflexivity | ].
  exact (create_user_stores_and_returns empty_world (VDict (model_dump ann)) ann
           eq_refl eq_refl).
Defined.

(** C2, as stated, fails: the body of the response to creating Ann in an
    empty store has no identifier. *)
Lemma create_body_without_identifier : ~ create_body_has_identifier.
Proof.
  intros H.
  destruct (H empty_world (VDict (model_dump ann)) ann eq_refl eq_refl)
    as (d & id & Hresp & Hid).
  vm_compute in Hresp. injection Hresp as <-.
  destruct Hid as [Hid | Hid]; vm_compute in Hid; discriminate Hid.
Qed.

(** ** Create, then get by email *)

Lemma read_user_by_email_run (email : string) (w : world) :
  read_user_by_email email w =
  (match List.find (matches (by_email email)) (users w) with
   | Some d => Return (VDict d)
   | None => Raise (HTTPException 404 "User Not Found")
   end,
   mkWorld (mongodb w) (next_oid w) (calls w ++ [mkCall "users" FindOne])).
Proof.
  unfold read_user_by_email, bind, find_one, logged, users.
  destruct (List.find _ _); reflexivity.
Qed.

(** The get route on a path segment, by what the email selects. *)
Lemma get_read_user_run (email : string) (w : world) :
  path_segment email = true ->
  fst (get_read_user email w) =
  match List.find (matches (by_email email)) (users w) with
  | Some d =>
      match response_User (VDict d) with
      | Some content => JSONResponse 200 content
      | None => InternalServerError
      end
  | None => not_found "User Not Found"
  end.
Proof.
  intros Hseg. unfold get_read_user. rewrite (routed_on _ _ _ _ Hseg).
  unfold respond. rewrite read_user_by_email_run.
  now destruct (List.find _ (users w)).
Qed.

Lemma get_read_user_off (email : string) (w : world) :
  path_segment email = false ->
  get_read_user email w = (unrouted "/api/v1/read-user/" email, w).
Proof. intros Hseg. unfold get_read_user. now apply routed_off. Qed.

Lemma get_read_user_world (email : string) (w : world) :
  snd (get_read_user email w)
  = if path_segment email
    then mkWorld (mongodb w) (next_oid w) (calls w ++ [mkCall "users" FindOne])
    else w.
Proof.
  unfold get_read_user, routed. destruct (path_segment email); [ | reflexivity ].
  now rewrite respond_world, read_user_by_email_run.
Qed.

(** The answer of the get route is settled by what the email selects. *)
Lemma get_read_user_same_find (email : string) (w w' : world) :
  List.find (matches (by_email email)) (users w')
  = List.find (matches (by_email email)) (users w) ->
  fst (get_read_user email w') = fst (get_read_user email w).
Proof.
  intros Hfind. destruct (path_segment email) eqn:Hseg.
  - now rewrite !(get_read_user_run _ _ Hseg), Hfind.
  - now rewrite !(get_read_user_off _ _ Hseg).
Qed.

Lemma stored_keeps_fields (oid : N) (u : User) (k : string) (v : value) :
  dict_get k (model_dump u) = Some v -> dict_get k (stored oid u) = Some v.
Proof.
  intros H. unfold stored. cbn [dict_get].
  destruct (String.eqb k "_id") eqn:E; [ | exact H ].
  apply String.eqb_eq in E. subst k. discriminate H.
Qed.

(** C1, as amended: for every valid User payload whose email selects no
    record already in the store, create followed by get-by-email on that
    email returns the stored document, which has the payload's value on
    every User field and the identifier the store assigned under [_id];
    when the email is a path segment (not empty, no ['/']), so that the
    route takes the request, the response to the get is 200 and its body
    is the seven User fields, equal to the payload's. *)
Theorem create_then_get_by_email (w : world) (u : User) :
  email_free (email_address u) w = true ->
  fst (read_user_by_email (email_address u) (snd (insert_user u w)))
  = Return (VDict (stored (next_oid w) u)) /\
  (forall k v, dict_get k (model_dump u) = Some v ->
               dict_get k (stored (next_oid w) u) = Some v) /\
  dict_get "_id" (stored (next_oid w) u) = Some (VObjectId (next_oid w)) /\
  (path_segment (email_address u) = true ->
   fst (get_read_user (email_address u) (snd (insert_user u w)))
   = JSONResponse 200 (VDict (model_dump u))).
Proof.
  intros Hfree.
  assert (Hfind : List.find (matches (by_email (email_address u)))
                            (users (snd (insert_user u w)))
                  = Some (stored (next_oid w) u)).
  { rewrite users_after_insert.
    rewrite find_app_none by now apply find_none_forallb.
    cbn [List.find]. now rewrite matches_email_stored. }
  split; [ now rewrite read_user_by_email_run, Hfind | ].
  split; [ intros k v; apply stored_keeps_fields | ].
  split; [ reflexivity | ].
  intros Hseg. rewrite (get_read_user_run _ _ Hseg), Hfind.
  now rewrite response_User_stored.
Qed.

Lemma create_then_get_by_email_witness :
  email_free (email_address ann) empty_world = true /\
  fst (read_user_by_email "ann@x.com" (snd (insert_user ann empty_world)))
  = Return (VDict (stored 0 ann)) /\
  fst (get_read_user "ann@x.com" (snd (insert_user ann empty_world)))
  = JSONResponse 200 (VDict (model_dump ann)).
Proof.
  split; [ reflexivity | ].
  destruct (create_then_get_by_email empty_world ann eq_refl)
    as (Hread & _ & _ & Hresp).
  split; [ exact Hread | exact (Hresp eq_refl) ].
Defined.

(** C1, as stated, fails: with Ann stored, creating Bob under Ann's email
    and getting that email returns Ann's record, not Bob's. *)
Lemma create_get_returns_older_record : ~ create_get_returns_input.
Proof.
  intros H.
  destruct (H world_ann bob eq_refl) as (d & id & Hread & Hfields & _).
  vm_compute in Hread. injection Hread as <-.
  specialize (Hfields "first_name" (VStr "Bob") eq_refl).
  vm_compute in Hfields. discriminate Hfields.
Qed.

(** ** Gateway calls per handler *)

Lemma insert_user_calls (u : User) : at_most_calls 2 (insert_user u).
Proof.
  intros w. rewrite insert_user_run. cbn [snd calls mongodb].
  exists [mkCall "users" InsertOne; mkCall "users" FindOne].
  split; [ reflexivity | ]. split; [ simpl; lia | ].
  split; [ repeat constructor | ].
  intros name Hne. now rewrite lookup_insert_ne.
Qed.

Lemma read_users_calls : at_most_calls 1 read_users.
Proof.
  intros w. unfold read_users, bind, find, ret, logged. cbn [snd calls mongodb].
  exists [mkCall "users" Find].
  split; [ reflexivity | ]. split; [ simpl; lia | ].
  split; [ repeat constructor | reflexivity ].
Qed.

Lemma read_user_by_email_calls (email : string) :
  at_most_calls 1 (read_user_by_email email).
Proof.
  intros w. rewrite read_user_by_email_run. cbn [snd calls mongodb].
  exists [mkCall "users" FindOne].
  split; [ reflexivity | ]. split; [ simpl; lia | ].
  split; [ repeat constructor | reflexivity ].
Qed.

Lemma update_user_calls (email : string) (p : UpdateUserDTO) :
  at_most_calls 2 (update_user email p).
Proof.
  intros w. unfold update_user, bind, update_one, find_one, raise, ret, logged.
  rewrite update_sendable. destruct (age_fits p).
  - destruct (mongodb w !! "users") as [docs | ] eqn:Hdocs.
    + destruct (update_first _ _ docs) as [docs' r].
      destruct (modified_count r =? 0); cbn [snd calls mongodb].
      * exists [mkCall "users" UpdateOne].
        split; [ reflexivity | ]. split; [ simpl; lia | ].
        split; [ repeat constructor | ].
        intros name Hne. now rewrite lookup_insert_ne.
      * exists [mkCall "users" UpdateOne; mkCall "users" FindOne].
        split; [ now rewrite <- app_assoc | ]. split; [ simpl; lia | ].
        split; [ repeat constructor | ].
        intros name Hne. now rewrite lookup_insert_ne.
    + cbn [modified_count Z.eqb snd calls mongodb].
      exists [mkCall "users" UpdateOne].
      split; [ reflexivity | ]. split; [ simpl; lia | ].
      split; [ repeat constructor | reflexivity ].
  - cbn [snd calls mongodb]. exists [mkCall "users" UpdateOne].
    split; [ reflexivity | ]. split; [ simpl; lia | ].
    split; [ repeat constructor | reflexivity ].
Qed.

Lemma delete_user_by_email_calls (email : string) :
  at_most_calls 1 (delete_user_by_email email).
Proof.
  intros w. unfold delete_user_by_email, bind, delete_one, raise, ret, logged.
  destruct (mongodb w !! "users") as [docs | ] eqn:Hdocs.
  - destruct (delete_first _ docs) as [docs' r].
    destruct (deleted_count r =? 0); cbn [snd calls mongodb];
      exists [mkCall "users" DeleteOne];
      (split; [ reflexivity | ]; split; [ simpl; lia | ];
       split; [ repeat constructor | ];
       intros name Hne; now rewrite lookup_insert_ne).
  - cbn [deleted_count Z.eqb snd calls mongodb].
    exists [mkCall "users" DeleteOne].
    split; [ reflexivity | ]. split; [ simpl; lia | ].
    split; [ repeat constructor | reflexivity ].
Qed.

(** C3, as amended: for every request, the list, get-by-email and delete
    handlers perform at most one persistence-gateway operation, the create
    and update handlers at most two (create: the insert, then a find of
    the inserted document; update: the update, then a find when a record
    was modified); every operation is on the "users" collection and no
    other collection changes. *)
Theorem handlers_gateway_calls : handlers_within 2 1 1 2 1.
Proof.
  unfold handlers_within.
  split; [ exact insert_user_calls | ].
  split; [ exact read_users_calls | ].
  split; [ exact read_user_by_email_calls | ].
  split; [ exact update_user_calls | exact delete_user_by_email_calls ].
Qed.

(** C3, as stated, fails: creating Ann in an empty store takes two
    gateway operations. *)
Lemma create_makes_two_calls : ~ handlers_within 1 1 1 1 1.
Proof.
  intros (Hcreate & _).
  destruct (Hcreate ann empty_world) as (cs & Hcalls & Hlen & _).
  vm_compute in Hcalls.
  destruct cs as [ | c1 [ | c2 cs ] ]; try discriminate Hcalls.
  simpl in Hlen. lia.
Qed.

(** ** Enumeration fields *)

Lemma validate_Gender_outside (g : value) :
  g <> VStr "male" -> g <> VStr "female" -> validate_Gender g = None.
Proof.
  intros Hm Hf. destruct g as [ | | | | s | | | ]; try reflexivity.
  unfold validate_Gender.
  destruct (String.eqb_spec s "male") as [-> | _]; [ congruence | ].
  destruct (String.eqb_spec s "female") as [-> | _]; [ congruence | ].
  reflexivity.
Qed.

Lemma validate_Role_outside (r : value) :
  r <> VStr "admin" -> r <> VStr "user" ->
  r <> VStr "student" -> r <> VStr "teacher" ->
  validate_Role r = None.
Proof.
  intros Ha Hu Hs Ht. destruct r as [ | | | | s | | | ]; try reflexivity.
  unfold validate_Role.
  destruct (String.eqb_spec s "admin") as [-> | _]; [ congruence | ].
  destruct (String.eqb_spec s "user") as [-> | _]; [ congruence | ].
  destruct (String.eqb_spec s "student") as [-> | _]; [ congruence | ].
  destruct (String.eqb_spec s "teacher") as [-> | _]; [ congruence | ].
  reflexivity.
Qed.

Lemma validate_each_fails {A : Type} (f : value -> option A) (l : list value)
  (r : value) :
  In r l -> f r = None -> validate_each f l = None.
Proof.
  intros Hin Hr. induction l as [ | x l IH ]; [ destruct Hin | ].
  cbn [validate_each]. destruct Hin as [-> | Hin].
  - now rewrite Hr.
  - rewrite (IH Hin). now destruct (f x).
Qed.

Lemma User_from_bad_gender (get : string -> option value) :
  required validate_Gender (get "gender") = None -> User_from get = None.
Proof. intros H. unfold User_from. rewrite H. crush_fields. Qed.

Lemma User_from_bad_roles (get : string -> option value) :
  required (validate_list validate_Role) (get "roles") = None ->
  User_from get = None.
Proof. intros H. unfold User_from. rewrite H. crush_fields. Qed.

(** C4: an input whose gender is outside {male, female}, or whose roles
    have an element outside {admin, user, student, teacher}, fails
    validation; the create operation answers with the validation error
    (422), makes no gateway call and leaves the store as it was, so no
    record is added. *)
Theorem create_rejects_unknown_enum (d : document) (w : world) :
  (exists g, dict_get "gender" d = Some g /\
             g <> VStr "male" /\ g <> VStr "female")
  \/ (exists l r, dict_get "roles" d = Some (VList l) /\ In r l /\
                  r <> VStr "admin" /\ r <> VStr "user" /\
                  r <> VStr "student" /\ r <> VStr "teacher") ->
  User_validate (VDict d) = None /\
  post_create_user (VDict d) w = (RequestValidationError, w) /\
  status_of (fst (post_create_user (VDict d) w)) = 422 /\
  users (snd (post_create_user (VDict d) w)) = users w.
Proof.
  intros Hbad.
  assert (Hnone : User_validate (VDict d) = None).
  { unfold User_validate.
    destruct Hbad as [(g & Hg & Hm & Hf) | (l & r & Hl & Hin & Ha & Hu & Hs & Ht)].
    - apply User_from_bad_gender. rewrite Hg. cbn [required].
      now apply validate_Gender_outside.
    - apply User_from_bad_roles. rewrite Hl. cbn [required validate_list].
      apply (validate_each_fails _ l r Hin).
      now apply validate_Role_outside. }
  unfold post_create_user. rewrite Hnone. repeat split; reflexivity.
Qed.

Lemma create_rejects_unknown_enum_witness :
  dict_get "gender" (dict_set "gender" (VStr "other") (model_dump ann))
  = Some (VStr "other") /\
  post_create_user (VDict (dict_set "gender" (VStr "other") (model_dump ann)))
                   world_ann
  = (RequestValidationError, world_ann).
Proof.
  split; [ reflexivity | ].
  apply (create_rejects_unknown_enum
           (dict_set "gender" (VStr "other") (model_dump ann)) world_ann).
  left. exists (VStr "other").
  split; [ reflexivity | split; discriminate ].
Defined.

(** ** Update *)

Lemma update_first_no_match (q u : document) (docs : list document) :
  List.find (matches q) docs = None ->
  update_first q u docs = (docs, mkUpdateResult true 0 0 VNone).
Proof.
  induction docs as [ | d docs IH ]; cbn [List.find update_first];
    [ reflexivity | ].
  destruct (matches q d); [ discriminate | ].
  intros H. now rewrite (IH H).
Qed.

Lemma update_first_unchanged (q u : document) (docs : list document)
  (r : document) :
  List.find (matches q) docs = Some r ->
  apply_update u r = r ->
  update_first q u docs = (docs, mkUpdateResult true 1 0 VNone).
Proof.
  intros Hfind Hsame.
  induction docs as [ | d docs IH ]; cbn [List.find update_first] in *;
    [ discriminate | ].
  destruct (matches q d).
  - injection Hfind as ->. rewrite Hsame. now rewrite document_eqb_refl.
  - now rewrite (IH Hfind).
Qed.

(** An update keeps every record in its place, as it was or updated. *)
Lemma update_first_lookup (q u : document) (docs : list document) (i : nat)
  (r : document) :
  docs !! i = Some r ->
  exists r', fst (update_first q u docs) !! i = Some r' /\
             (r' = r \/ r' = apply_update u r).
Proof.
  revert i. induction docs as [ | d docs IH ]; intros i Hi;
    [ destruct i; discriminate | ].
  cbn [update_first]. destruct (matches q d).
  - destruct i as [ | i ]; cbn [fst].
    + injection Hi as ->. eexists; split; [ reflexivity | now right ].
    + exists r. split; [ exact Hi | now left ].
  - destruct (update_first q u docs) as [rest' res] eqn:E.
    destruct i as [ | i ]; cbn [fst].
    + exists r. split; [ exact Hi | now left ].
    + destruct (IH i Hi) as (r' & Hr' & Hor). exists r'. split; [ | exact Hor ].
      exact Hr'.
Qed.

(** A store that reports no modified record has changed nothing. *)
Lemma update_first_zero_modified (q u : document) (docs : list document) :
  modified_count (snd (update_first q u docs)) = 0 ->
  fst (update_first q u docs) = docs.
Proof.
  induction docs as [ | d docs IH ]; cbn [update_first]; [ reflexivity | ].
  destruct (matches q d).
  - cbn [fst snd modified_count].
    destruct (document_eqb (apply_update u d) d) eqn:E; [ | discriminate ].
    intros _. apply value_eqb_eq in E. now injection E as ->.
  - destruct (update_first q u docs) as [rest' r]. cbn [fst snd] in *.
    intros H. now rewrite (IH H).
Qed.

(** The update handler when the driver can encode the patch. *)
Lemma update_user_outcome (email : string) (p : UpdateUserDTO) (w : world) :
  age_fits p = true ->
  fst (update_user email p w) =
  if modified_count (update_result email p w) =? 0
  then Raise (HTTPException 404 "User not found or no update needed")
  else Return (update_result email p w).
Proof.
  intros Hfits.
  unfold update_user, update_result, users, collection, bind, update_one,
    find_one, raise, ret, set_fields.
  rewrite update_sendable, Hfits.
  destruct (mongodb w !! "users") as [docs | ]; cbn [from_option id];
    [ | reflexivity ].
  fold (by_email email).
  destruct (update_first _ _ docs) as [docs' r]. cbn [snd].
  destruct (modified_count r =? 0); reflexivity.
Qed.

Lemma update_user_users (email : string) (p : UpdateUserDTO) (w : world) :
  age_fits p = true ->
  users (snd (update_user email p w)) =
  fst (update_first (by_email email) (set_fields p) (users w)).
Proof.
  intros Hfits.
  unfold update_user, users, collection, bind, update_one, find_one, raise,
    ret, set_fields.
  rewrite update_sendable, Hfits.
  destruct (mongodb w !! "users") as [docs | ] eqn:Hdocs; cbn [from_option id].
  - fold (by_email email).
    destruct (update_first _ _ docs) as [docs' r]. cbn [fst].
    destruct (modified_count r =? 0); cbn [snd mongodb];
      now rewrite lookup_insert_eq.
  - cbn [modified_count Z.eqb snd mongodb update_first fst].
    now rewrite Hdocs.
Qed.

(** The update handler when the driver cannot encode the patch: the
    driver's error goes through and nothing is written. *)
Lemma update_user_overflow (email : string) (p : UpdateUserDTO) (w : world) :
  age_fits p = false ->
  fst (update_user email p w) = Raise OverflowError /\
  mongodb (snd (update_user email p w)) = mongodb w /\
  next_oid (snd (update_user email p w)) = next_oid w.
Proof.
  intros Hfits. unfold update_user, bind, update_one.
  rewrite update_sendable, Hfits. now repeat split.
Qed.

Lemma users_same_mongodb (w w' : world) :
  mongodb w' = mongodb w -> users w' = users w.
Proof. unfold users, collection. now intros ->. Qed.

(** The [UpdateResult] object has none of the attributes of a [User]. *)
Lemma UpdateResult_is_no_User (r : UpdateResult) :
  response_User_from_attributes r = None.
Proof. reflexivity. Qed.

Lemma put_update_user_world (email : string) (p : UpdateUserDTO) (w : world) :
  snd (put_update_user email p w)
  = if path_segment email then snd (update_user email p w) else w.
Proof.
  unfold put_update_user, routed.
  destruct (path_segment email); [ apply respond_world | reflexivity ].
Qed.

(** The response to an update: the router's answer when the email is no
    path segment; 500 when the driver cannot encode the patch; 404 when the
    store reports no modified record; otherwise the handler returns the
    [UpdateResult], which does not validate against [response_model=User]. *)
Lemma put_update_user_response (email : string) (p : UpdateUserDTO) (w : world) :
  fst (put_update_user email p w) =
  if path_segment email then
    if age_fits p then
      if modified_count (update_result email p w) =? 0
      then not_found "User not found or no update needed"
      else InternalServerError
    else InternalServerError
  else unrouted "/api/v1/update-user/" email.
Proof.
  unfold put_update_user, routed.
  destruct (path_segment email); [ | reflexivity ].
  unfold respond. destruct (age_fits p) eqn:Hfits.
  - pose proof (update_user_outcome email p w Hfits) as H.
    destruct (update_user email p w) as [[r | [s d | ]] w']; cbn [fst] in *;
      destruct (modified_count (update_result email p w) =? 0);
      try discriminate H.
    + now rewrite UpdateResult_is_no_User.
    + now injection H as -> ->.
  - destruct (update_user_overflow email p w Hfits) as (H & _).
    destruct (update_user email p w) as [[r | [s d | ]] w']; cbn [fst] in *;
      try discriminate H. reflexivity.
Qed.

(** C5: with Ann stored, an update of her age modifies her record and the
    handler returns the store's result object, but the response is 500,
    not 200: the object is not a [User]. *)
Lemma update_modified_answers_500 :
  fst (update_user "ann@x.com" age_30 world_ann)
  = Return (mkUpdateResult true 1 1 VNone) /\
  dict_get "age" (default [] (users (snd (update_user "ann@x.com" age_30 world_ann)) !! 0%nat))
  = Some (VInt 30) /\
  fst (put_update_user "ann@x.com" age_30 world_ann) = InternalServerError /\
  status_of (fst (put_update_user "ann@x.com" age_30 world_ann)) = 500.
Proof. repeat split; vm_compute; reflexivity. Qed.

Lemma apply_update_one_field (p : UpdateUserDTO) (k : string) (v : value)
  (r : document) :
  model_dump_exclude_unset p = [(k, v)] ->
  apply_update (set_fields p) r = dict_set k v r.
Proof.
  intros Hone. unfold apply_update, set_fields. cbn -[apply_set].
  rewrite Hone. reflexivity.
Qed.

(** C6: for every stored record and every patch in which exactly one
    field is set, a successful update by that record's email leaves the
    record in its place with every other field as it was. *)
Theorem update_one_field_keeps_the_rest (w : world) (email : string)
  (p : UpdateUserDTO) (k : string) (v : value) (i : nat) (r : document)
  (res : UpdateResult) :
  model_dump_exclude_unset p = [(k, v)] ->
  users w !! i = Some r ->
  matches (by_email email) r = true ->
  fst (update_user email p w) = Return res ->
  exists r', users (snd (update_user email p w)) !! i = Some r' /\
             forall k', k' <> k -> dict_get k' r' = dict_get k' r.
Proof.
  intros Hone Hi _ Hreturn.
  destruct (age_fits p) eqn:Hfits.
  - rewrite (update_user_users email p w Hfits).
    destruct (update_first_lookup (by_email email) (set_fields p) (users w) i r Hi)
      as (r' & Hr' & Hor).
    exists r'. split; [ exact Hr' | ]. destruct Hor as [-> | ->].
    + reflexivity.
    + intros k' Hne. rewrite (apply_update_one_field p k v r Hone).
      now apply dict_get_set_ne.
  - destruct (update_user_overflow email p w Hfits) as (Hraise & _).
    rewrite Hraise in Hreturn. discriminate Hreturn.
Qed.

Lemma update_one_field_keeps_the_rest_witness :
  exists r', users world_ann_30 !! 0%nat = Some r' /\
             forall k', k' <> "age" -> dict_get k' r' = dict_get k' (stored 0 ann).
Proof.
  exact (update_one_field_keeps_the_rest world_ann "ann@x.com" age_30
           "age" (VInt 30) 0%nat (stored 0 ann) (mkUpdateResult true 1 1 VNone)
           eq_refl eq_refl eq_refl eq_refl).
Defined.

Lemma apply_set_stored (fields r : document) :
  (forall k v, In (k, v) fields -> dict_get k r = Some v) ->
  apply_set fields r = r.
Proof.
  unfold apply_set. induction fields as [ | [k v] fields IH ]; intros Hall;
    [ reflexivity | ].
  cbn [fold_left fst snd]. rewrite dict_set_same by (apply Hall; now left).
  apply IH. intros k' v' Hin. apply Hall. now right.
Qed.

(** An update the store does not modify anything for: the handler's 404,
    which is the response when the route takes the email, and the
    database as before. *)
Lemma update_not_modified (w : world) (email : string) (p : UpdateUserDTO)
  (matched : Z) :
  age_fits p = true ->
  update_first (by_email email) (set_fields p) (users w)
  = (users w, mkUpdateResult true matched 0 VNone) ->
  fst (update_user email p w)
  = Raise (HTTPException 404 "User not found or no update needed") /\
  (path_segment email = true ->
   fst (put_update_user email p w)
   = not_found "User not found or no update needed") /\
  users (snd (put_update_user email p w)) = users w /\
  mongodb (snd (put_update_user email p w)) = mongodb w.
Proof.
  intros Hfits Hupd.
  assert (Hres : update_result email p w = mkUpdateResult true matched 0 VNone).
  { unfold update_result. now rewrite Hupd. }
  assert (Hdb : mongodb (snd (update_user email p w)) = mongodb w).
  { unfold update_user, bind, update_one, find_one, raise, ret.
    rewrite update_sendable, Hfits.
    unfold users, collection in Hupd. fold (set_fields p) (by_email email).
    destruct (mongodb w !! "users") as [docs | ] eqn:Hdocs;
      cbn [from_option id] in Hupd; [ | reflexivity ].
    rewrite Hupd. cbn [modified_count Z.eqb snd mongodb].
    now apply insert_id. }
  split; [ rewrite (update_user_outcome _ _ _ Hfits), Hres; reflexivity | ].
  rewrite put_update_user_response, put_update_user_world, Hfits, Hres.
  cbn [modified_count Z.eqb].
  destruct (path_segment email).
  - repeat split; try reflexivity; [ now apply users_same_mongodb | exact Hdb ].
  - repeat split; try reflexivity. discriminate.
Qed.

(** C7, as amended: for every email that selects no stored record and
    every patch whose age, when set, fits in 64 bits, the update handler
    raises the 404 with detail "User not found or no update needed"; that
    404 is the response whenever the email is a path segment (not empty,
    no ['/']), so that the route takes the request; the users collection
    and the whole database are exactly as before the call. *)
Theorem update_unknown_email (w : world) (email : string) (p : UpdateUserDTO) :
  email_free email w = true ->
  age_fits p = true ->
  fst (update_user email p w)
  = Raise (HTTPException 404 "User not found or no update needed") /\
  (path_segment email = true ->
   fst (put_update_user email p w)
   = not_found "User not found or no update needed") /\
  users (snd (put_update_user email p w)) = users w /\
  mongodb (snd (put_update_user email p w)) = mongodb w.
Proof.
  intros Hfree Hfits. apply find_none_forallb in Hfree.
  apply (update_not_modified w email p 0 Hfits).
  now apply update_first_no_match.
Qed.

Lemma update_unknown_email_witness :
  email_free "nobody@x.com" world_ann = true /\
  age_fits age_30 = true /\
  fst (put_update_user "nobody@x.com" age_30 world_ann)
  = not_found "User not found or no update needed" /\
  users (snd (put_update_user "nobody@x.com" age_30 world_ann)) = users world_ann.
Proof.
  split; [ reflexivity | ]. split; [ reflexivity | ].
  destruct (update_unknown_email world_ann "nobody@x.com" age_30 eq_refl eq_refl)
    as (_ & Hresp & Husers & _).
  split; [ exact (Hresp eq_refl) | exact Husers ].
Defined.

(** C7, as stated, fails: with Ann stored, an update of an unknown email
    whose patch sets the age 2^63 is answered 500, not 404: the driver
    cannot encode the age. *)
Lemma update_unknown_huge_age : ~ update_unknown_always_404.
Proof.
  intros H.
  destruct (H world_ann "nobody@x.com" age_huge eq_refl eq_refl)
    as (Hstatus & _).
  vm_compute in Hstatus. discriminate Hstatus.
Qed.




(** ** Delete *)

Lemma filter_nil_find {A : Type} (p : A -> bool) (l : list A) :
  List.filter p l = [] -> List.find p l = None.
Proof.
  induction l as [ | x l IH ]; cbn [List.filter List.find]; [ reflexivity | ].
  destruct (p x); [ discriminate | exact IH ].
Qed.

Lemma delete_first_no_match (q : document) (docs : list document) :
  List.find (matches q) docs = None ->
  delete_first q docs = (docs, mkDeleteResult 0).
Proof.
  induction docs as [ | d docs IH ]; cbn [List.find delete_first];
    [ reflexivity | ].
  destruct (matches q d); [ discriminate | ].
  intros H. now rewrite (IH H).
Qed.

(** When the query selects one record only, that record is the one
    removed and the query selects nothing afterwards. *)
Lemma delete_first_unique (q : document) (docs : list document) (r : document) :
  List.filter (matches q) docs = [r] ->
  exists l1 l2,
    docs = (l1 ++ r :: l2)%list /\
    delete_first q docs = ((l1 ++ l2)%list, mkDeleteResult 1) /\
    List.find (matches q) (l1 ++ l2) = None.
Proof.
  induction docs as [ | d docs IH ]; cbn [List.filter delete_first];
    [ discriminate | ].
  destruct (matches q d) eqn:Hd; intros Hone.
  - injection Hone as -> Hrest. exists [], docs.
    split; [ reflexivity | ]. split; [ reflexivity | ].
    now apply filter_nil_find.
  - destruct (IH Hone) as (l1 & l2 & -> & Hdel & Hnone).
    exists (d :: l1), l2. split; [ reflexivity | ].
    rewrite Hdel. split; [ reflexivity | ].
    cbn [app List.find]. now rewrite Hd.
Qed.

Lemma delete_user_outcome (email : string) (w : world) :
  fst (delete_user_by_email email w) =
  if deleted_count (snd (delete_first (by_email email) (users w))) =? 0
  then Raise (HTTPException 404 "User Not Found")
  else Return deleted_message.
Proof.
  unfold delete_user_by_email, users, collection, bind, delete_one, raise, ret.
  destruct (mongodb w !! "users") as [docs | ]; cbn [from_option id];
    [ | reflexivity ].
  destruct (delete_first _ docs) as [docs' r]. cbn [snd].
  destruct (deleted_count r =? 0); reflexivity.
Qed.

Lemma delete_user_users (email : string) (w : world) :
  users (snd (delete_user_by_email email w)) =
  fst (delete_first (by_email email) (users w)).
Proof.
  unfold delete_user_by_email, users, collection, bind, delete_one, raise, ret.
  destruct (mongodb w !! "users") as [docs | ] eqn:Hdocs; cbn [from_option id].
  - destruct (delete_first _ docs) as [docs' r]. cbn [fst].
    destruct (deleted_count r =? 0); cbn [snd mongodb];
      now rewrite lookup_insert_eq.
  - cbn [deleted_count Z.eqb snd mongodb delete_first fst].
    now rewrite Hdocs.
Qed.

Lemma delete_delete_user_world (email : string) (w : world) :
  snd (delete_delete_user email w)
  = if path_segment email then snd (delete_user_by_email email w) else w.
Proof.
  unfold delete_delete_user, routed.
  destruct (path_segment email); [ apply respond_world | reflexivity ].
Qed.

Lemma delete_delete_user_response (email : string) (w : world) :
  fst (delete_delete_user email w) =
  if path_segment email then
    if deleted_count (snd (delete_first (by_email email) (users w))) =? 0
    then not_found "User Not Found"
    else JSONResponse 200 deleted_message
  else unrouted "/api/v1/delete-user/" email.
Proof.
  unfold delete_delete_user, routed.
  destruct (path_segment email); [ | reflexivity ].
  pose proof (delete_user_outcome email w) as H. unfold respond.
  destruct (delete_user_by_email email w) as [[v | [s d | ]] w']; cbn [fst] in *;
    destruct (deleted_count _ =? 0); try discriminate H.
  - now injection H as ->.
  - now injection H as -> ->.
Qed.

Lemma get_read_user_unknown (email : string) (w : world) :
  path_segment email = true ->
  List.find (matches (by_email email)) (users w) = None ->
  fst (get_read_user email w) = not_found "User Not Found".
Proof.
  intros Hseg Hnone. now rewrite (get_read_user_run _ _ Hseg), Hnone.
Qed.

(** C8, as amended: for every stored record whose email is a path segment
    (not empty, no ['/']) and selects no other stored record, the delete
    operation on that email removes exactly that record and answers 200
    with {"message": "User deleted Successfully"}; a get-by-email on the
    same address then answers 404, and a second delete on it answers 404
    with detail "User Not Found". *)
Theorem delete_by_unique_email (w : world) (email : string) (r : document) :
  path_segment email = true ->
  List.filter (matches (by_email email)) (users w) = [r] ->
  fst (delete_delete_user email w) = JSONResponse 200 deleted_message /\
  (exists l1 l2, users w = (l1 ++ r :: l2)%list /\
                 users (snd (delete_delete_user email w)) = (l1 ++ l2)%list) /\
  fst (get_read_user email (snd (delete_delete_user email w)))
  = not_found "User Not Found" /\
  fst (delete_delete_user email (snd (delete_delete_user email w)))
  = not_found "User Not Found".
Proof.
  intros Hseg Hone.
  destruct (delete_first_unique (by_email email) (users w) r Hone)
    as (l1 & l2 & Hsplit & Hdel & Hnone).
  assert (Husers : users (snd (delete_delete_user email w)) = (l1 ++ l2)%list).
  { rewrite delete_delete_user_world, Hseg, delete_user_users.
    now rewrite Hdel. }
  split; [ rewrite delete_delete_user_response, Hseg, Hdel; reflexivity | ].
  split; [ exists l1, l2; split; [ exact Hsplit | exact Husers ] | ].
  split.
  - apply (get_read_user_unknown _ _ Hseg). now rewrite Husers.
  - rewrite delete_delete_user_response, Hseg, Husers.
    now rewrite (delete_first_no_match _ _ Hnone).
Qed.

Lemma delete_by_unique_email_witness :
  List.filter (matches (by_email "ann@x.com")) (users world_ann) = [stored 0 ann] /\
  fst (delete_delete_user "ann@x.com" world_ann) = JSONResponse 200 deleted_message /\
  fst (get_read_user "ann@x.com" (snd (delete_delete_user "ann@x.com" world_ann)))
  = not_found "User Not Found" /\
  fst (delete_delete_user "ann@x.com"
         (snd (delete_delete_user "ann@x.com" world_ann)))
  = not_found "User Not Found".
Proof.
  split; [ reflexivity | ].
  destruct (delete_by_unique_email world_ann "ann@x.com" (stored 0 ann)
              eq_refl eq_refl) as (Hdel & _ & Hget & Hagain).
  split; [ exact Hdel | ]. split; [ exact Hget | exact Hagain ].
Defined.

(** C8, as stated, fails: with Ann and Bob stored under one email, a
    delete on that email removes Ann's record, and a get on the email
    answers 200 with Bob's. *)
Lemma delete_leaves_the_duplicate : ~ delete_removes_that_record.
Proof.
  intros H.
  assert (Hin : In (stored 1 bob) (users world_ann_bob)).
  { vm_compute. right. left. reflexivity. }
  destruct (H world_ann_bob "ann@x.com" (stored 1 bob) Hin eq_refl)
    as (_ & _ & Hget & _).
  vm_compute in Hget. discriminate Hget.
Qed.

(** ** List *)

Lemma filter_all (docs : list document) : List.filter (matches []) docs = docs.
Proof.
  induction docs as [ | d docs IH ]; [ reflexivity | ].
  cbn [List.filter matches forallb]. now rewrite IH.
Qed.

Lemma get_read_all_users_response (w : world) :
  fst (get_read_all_users w) =
  match response_List_User (VList (map VDict (users w))) with
  | Some content => JSONResponse 200 content
  | None => InternalServerError
  end.
Proof.
  unfold get_read_all_users, respond, read_users, bind, find, ret.
  cbn [fst]. fold (users w). now rewrite filter_all.
Qed.

Lemma response_stored_from (n : N) (us : list User) :
  validate_each response_User (map VDict (stored_from n us))
  = Some (map (fun u => VDict (model_dump u)) us).
Proof.
  revert n. induction us as [ | u us IH ]; intros n; [ reflexivity | ].
  cbn [stored_from map validate_each].
  now rewrite response_User_stored, IH.
Qed.

Lemma validate_each_cons {A : Type} (f : value -> option A) (v : value)
  (l : list value) (xs : list A) :
  validate_each f (v :: l) = Some xs ->
  exists x xs', xs = x :: xs' /\ f v = Some x /\ validate_each f l = Some xs'.
Proof.
  cbn [validate_each].
  destruct (f v) as [x | ]; [ | discriminate ].
  destruct (validate_each f l) as [xs' | ]; [ | discriminate ].
  intros H. injection H as <-. now exists x, xs'.
Qed.

Lemma validate_each_length {A : Type} (f : value -> option A)
  (l : list value) (xs : list A) :
  validate_each f l = Some xs -> length xs = length l.
Proof.
  revert xs. induction l as [ | v l IH ]; intros xs H.
  - injection H as <-. reflexivity.
  - apply validate_each_cons in H as (x & xs' & -> & _ & Hrest).
    cbn [length]. now rewrite (IH xs' Hrest).
Qed.

(** Creates append their documents in order, with consecutive identifiers. *)
Lemma users_after_creates (bodies : list value) (us : list User) (w : world) :
  validate_each User_validate bodies = Some us ->
  users (create_all bodies w) = (users w ++ stored_from (next_oid w) us)%list.
Proof.
  revert us w. induction bodies as [ | body bodies IH ]; intros us w Hvalid.
  - injection Hvalid as <-. cbn [create_all fold_left stored_from].
    now rewrite app_nil_r.
  - apply validate_each_cons in Hvalid as (u & us' & -> & Hu & Hrest).
    unfold create_all. cbn [fold_left]. fold (create_all bodies).
    rewrite (post_create_user_valid w body u Hu), respond_world.
    rewrite (IH us' _ Hrest), users_after_insert.
    rewrite insert_user_run. cbn [snd next_oid stored_from].
    now rewrite <- app_assoc.
Qed.

(** C9: in a store with no users the list operation answers 200 with an
    empty sequence; after N creates with valid payloads of distinct emails
    it answers 200 with exactly N records, the payloads' records in some
    order. *)
Theorem list_after_creates (w : world) (bodies : list value) (us : list User) :
  users w = [] ->
  validate_each User_validate bodies = Some us ->
  NoDup (map email_address us) ->
  fst (get_read_all_users w) = JSONResponse 200 (VList []) /\
  exists l : list value,
    fst (get_read_all_users (create_all bodies w)) = JSONResponse 200 (VList l) /\
    length l = length bodies /\
    l ≡ₚ map (fun u => VDict (model_dump u)) us.
Proof.
  intros Hempty Hvalid _. split.
  - rewrite get_read_all_users_response, Hempty. reflexivity.
  - exists (map (fun u => VDict (model_dump u)) us).
    rewrite get_read_all_users_response.
    rewrite (users_after_creates bodies us w Hvalid), Hempty.
    cbn [app]. unfold response_List_User, validate_list.
    rewrite response_stored_from.
    split; [ reflexivity | ]. split; [ | reflexivity ].
    rewrite length_map. exact (validate_each_length User_validate bodies us Hvalid).
Qed.

Lemma list_after_creates_witness :
  NoDup (map email_address [ann; eve]) /\
  fst (get_read_all_users empty_world) = JSONResponse 200 (VList []) /\
  exists l : list value,
    fst (get_read_all_users
           (create_all [VDict (model_dump ann); VDict (model_dump eve)]
                       empty_world))
    = JSONResponse 200 (VList l) /\
    length l = 2%nat.
Proof.
  assert (Hdistinct : NoDup (map email_address [ann; eve])).
  { apply (bool_decide_unpack _). vm_compute. exact I. }
  split; [ exact Hdistinct | ].
  destruct (list_after_creates empty_world
              [VDict (model_dump ann); VDict (model_dump eve)] [ann; eve]
              eq_refl eq_refl Hdistinct) as (Hzero & l & Hresp & Hlen & _).
  split; [ exact Hzero | ]. exists l. split; [ exact Hresp | exact Hlen ].
Defined.

(** ** Fresh identifiers

    The identifier drawn next stays unused along creates into an empty
    collection. *)

Lemma matches_id_stored_eqb (m oid : N) (u : User) :
  matches [("_id", VObjectId m)] (stored oid u) = N.eqb oid m.
Proof.
  unfold matches, stored, field_matches. cbn.
  now rewrite orb_false_r, andb_true_r.
Qed.

Lemma stored_from_below (n m : N) (us : list User) :
  (n + N.of_nat (length us) <= m)%N ->
  forallb (fun d => negb (matches [("_id", VObjectId m)] d)) (stored_from n us)
  = true.
Proof.
  revert n. induction us as [ | u us IH ]; intros n Hle; [ reflexivity | ].
  cbn [stored_from forallb length] in *. rewrite matches_id_stored_eqb.
  rewrite IH by lia.
  destruct (N.eqb_spec n m) as [-> | _]; [ lia | reflexivity ].
Qed.

Lemma next_oid_after_creates (bodies : list value) (us : list User) (w : world) :
  validate_each User_validate bodies = Some us ->
  next_oid (create_all bodies w) = (next_oid w + N.of_nat (length us))%N.
Proof.
  revert us w. induction bodies as [ | body bodies IH ]; intros us w Hvalid.
  - injection Hvalid as <-. cbn [create_all fold_left length]. lia.
  - apply validate_each_cons in Hvalid as (u & us' & -> & Hu & Hrest).
    unfold create_all. cbn [fold_left]. fold (create_all bodies).
    rewrite (post_create_user_valid w body u Hu), respond_world.
    rewrite (IH us' _ Hrest), insert_user_run. cbn [snd next_oid length]. lia.
Qed.

Lemma oid_fresh_after_creates (bodies : list value) (us : list User) (w : world) :
  users w = [] ->
  validate_each User_validate bodies = Some us ->
  oid_fresh (create_all bodies w) = true.
Proof.
  intros Hempty Hvalid. unfold oid_fresh.
  rewrite (users_after_creates bodies us w Hvalid), Hempty.
  rewrite (next_oid_after_creates bodies us w Hvalid). cbn [app].
  apply stored_from_below. lia.
Qed.

(** * Further properties of the model and the handlers *)

(** ** What validation accepts *)

Lemma validate_str_inv (v : value) (s : string) :
  validate_str v = Some s -> v = VStr s.
Proof. destruct v; try discriminate. now intros [= ->]. Qed.

Lemma validate_Gender_inv (v : value) (g : Gender) :
  validate_Gender v = Some g -> v = VStr (Gender_value g).
Proof.
  destruct v as [ | | | | s | | | ]; try discriminate. unfold validate_Gender.
  destruct (String.eqb_spec s "male") as [-> | _]; [ now intros [= <-] | ].
  destruct (String.eqb_spec s "female") as [-> | _]; [ now intros [= <-] | ].
  discriminate.
Qed.

Lemma validate_Role_inv (v : value) (r : Role) :
  validate_Role v = Some r -> v = VStr (Role_value r).
Proof.
  destruct v as [ | | | | s | | | ]; try discriminate. unfold validate_Role.
  destruct (String.eqb_spec s "admin") as [-> | _]; [ now intros [= <-] | ].
  destruct (String.eqb_spec s "user") as [-> | _]; [ now intros [= <-] | ].
  destruct (String.eqb_spec s "student") as [-> | _]; [ now intros [= <-] | ].
  destruct (String.eqb_spec s "teacher") as [-> | _]; [ now intros [= <-] | ].
  discriminate.
Qed.

Lemma validate_roles_inv (l : list value) (rs : list Role) :
  validate_each validate_Role l = Some rs ->
  l = map (fun r => VStr (Role_value r)) rs.
Proof.
  revert rs. induction l as [ | v l IH ]; intros rs H.
  - injection H as <-. reflexivity.
  - apply validate_each_cons in H as (r & rs' & -> & Hr & Hrest).
    cbn [map]. now rewrite (validate_Role_inv v r Hr), (IH rs' Hrest).
Qed.

Lemma required_inv {A : Type} (f : value -> option A) (o : option value) (a : A) :
  required f o = Some a -> exists v, o = Some v /\ f v = Some a.
Proof. destruct o as [v | ]; [ | discriminate ]. intros H. now exists v. Qed.

(** The seven lookups behind a successful validation. *)
Lemma User_from_inv (get : string -> option value) (u : User) :
  User_from get = Some u ->
  get "first_name" = Some (VStr (first_name u)) /\
  get "last_name" = Some (VStr (last_name u)) /\
  (get "middle_name" = None /\ middle_name u = None \/
   get "middle_name" = dict_get "middle_name" (model_dump u)) /\
  get "gender" = Some (VStr (Gender_value (gender u))) /\
  get "email_address" = Some (VStr (email_address u)) /\
  get "phone_number" = Some (VStr (phone_number u)) /\
  get "roles" = Some (VList (map (fun r => VStr (Role_value r)) (roles u))).
Proof.
  unfold User_from.
  destruct (required validate_str (get "first_name")) as [fn | ] eqn:E1;
    [ | discriminate ].
  destruct (required validate_str (get "last_name")) as [ln | ] eqn:E2;
    [ | discriminate ].
  destruct (with_default validate_optional_str None (get "middle_name"))
    as [mn | ] eqn:E3; [ | discriminate ].
  destruct (required validate_Gender (get "gender")) as [g | ] eqn:E4;
    [ | discriminate ].
  destruct (required validate_str (get "email_address")) as [e | ] eqn:E5;
    [ | discriminate ].
  destruct (required validate_str (get "phone_number")) as [ph | ] eqn:E6;
    [ | discriminate ].
  destruct (required (validate_list validate_Role) (get "roles")) as [rs | ] eqn:E7;
    [ | discriminate ].
  intros [= <-]. cbn [first_name last_name middle_name gender email_address
                      phone_number roles].
  apply required_inv in E1 as (v1 & -> & H1%validate_str_inv).
  apply required_inv in E2 as (v2 & -> & H2%validate_str_inv).
  apply required_inv in E4 as (v4 & -> & H4%validate_Gender_inv).
  apply required_inv in E5 as (v5 & -> & H5%validate_str_inv).
  apply required_inv in E6 as (v6 & -> & H6%validate_str_inv).
  apply required_inv in E7 as (v7 & -> & H7).
  subst. repeat split; try reflexivity.
  - destruct (get "middle_name") as [v3 | ]; cbn [with_default] in E3.
    + right. destruct v3; try discriminate E3; injection E3 as <-; reflexivity.
    + left. injection E3 as <-. now split.
  - destruct v7; try discriminate H7. cbn [validate_list] in H7.
    now rewrite (validate_roles_inv _ _ H7).
Qed.

(** X1: a document that agrees with the dump of a [User] on the seven
    declared fields validates to that [User], whatever other keys it has
    and in whatever order. *)
Theorem User_validate_agreeing (u : User) (d : document) :
  (forall k, In k declared_fields -> dict_get k d = dict_get k (model_dump u)) ->
  User_validate (VDict d) = Some u.
Proof.
  intros Hagree. rewrite <- (User_validate_dump u).
  unfold User_validate, User_from.
  rewrite !Hagree by (cbn; tauto). reflexivity.
Qed.

Lemma User_validate_agreeing_witness :
  User_validate
    (VDict (dict_set "age" (VInt 30) (("_id", VObjectId 7) :: rev (model_dump eve))))
  = Some eve.
Proof.
  apply (User_validate_agreeing eve).
  intros k Hin. cbn in Hin.
  repeat (destruct Hin as [<- | Hin]; [ reflexivity | ]). destruct Hin.
Defined.

(** X2: validation does not rewrite its input: when a document validates
    to a [User], every declared field the document has carries the value
    the dump of that [User] has, and a document without [middle_name]
    gives a [User] without one. *)
Theorem User_validate_keeps_values (d : document) (u : User) :
  User_validate (VDict d) = Some u ->
  (forall k v, In k declared_fields -> dict_get k d = Some v ->
               dict_get k (model_dump u) = Some v) /\
  (dict_get "middle_name" d = None -> middle_name u = None).
Proof.
  intros Hvalid. unfold User_validate in Hvalid.
  apply User_from_inv in Hvalid
    as (H1 & H2 & H3 & H4 & H5 & H6 & H7). cbv beta in *.
  split.
  - intros k v Hin Hget. cbn in Hin.
    destruct Hin as [<- | [<- | [<- | [<- | [<- | [<- | [<- | []]]]]]]];
      try (rewrite Hget in *; cbn; congruence).
    destruct H3 as [[Hnone _] | Hsame]; [ congruence | ].
    now rewrite <- Hsame.
  - intros Hnone. destruct H3 as [[_ Hmn] | Hsame]; [ exact Hmn | ].
    rewrite Hnone in Hsame. cbn in Hsame. destruct (middle_name u); discriminate.
Qed.

Lemma User_validate_keeps_values_witness :
  (forall k v, In k declared_fields ->
               dict_get k (stored 0 ann) = Some v ->
               dict_get k (model_dump ann) = Some v) /\
  (dict_get "middle_name" (stored 0 ann) = None -> middle_name ann = None).
Proof. exact (User_validate_keeps_values (stored 0 ann) ann eq_refl). Defined.

(** X3: an enumeration field takes exactly the strings of its members,
    and different members have different strings. *)
Theorem enumerations_are_closed :
  (forall v g, validate_Gender v = Some g <-> v = VStr (Gender_value g)) /\
  (forall v r, validate_Role v = Some r <-> v = VStr (Role_value r)) /\
  (forall g g', Gender_value g = Gender_value g' -> g = g') /\
  (forall r r', Role_value r = Role_value r' -> r = r').
Proof.
  split; [ | split; [ | split ] ].
  - intros v g. split; [ apply validate_Gender_inv | ].
    intros ->. apply validate_Gender_value.
  - intros v r. split; [ apply validate_Role_inv | ].
    intros ->. apply validate_Role_value.
  - intros [] []; (reflexivity || discriminate).
  - intros [] []; (reflexivity || discriminate).
Qed.

(** X4: a body that is not an object, or an object without one of the six
    required fields, is answered 422 by the create route, which then
    makes no gateway call and leaves the world as it was. *)
Theorem create_rejects_missing_field (body : value) (w : world) :
  (forall d, body <> VDict d)
  \/ (exists d k, body = VDict d /\ In k required_fields /\ dict_get k d = None) ->
  post_create_user body w = (RequestValidationError, w).
Proof.
  intros Hbad. unfold post_create_user.
  assert (Hnone : User_validate body = None).
  { destruct Hbad as [Hnot | (d & k & -> & Hin & Hk)].
    - destruct body; try reflexivity. now destruct (Hnot d).
    - destruct (User_validate (VDict d)) as [u | ] eqn:Hv; [ | reflexivity ].
      unfold User_validate in Hv. apply User_from_inv in Hv
        as (H1 & H2 & _ & H4 & H5 & H6 & H7). cbv beta in *.
      cbn in Hin.
      destruct Hin as [<- | [<- | [<- | [<- | [<- | [<- | []]]]]]]; congruence. }
  now rewrite Hnone.
Qed.

Lemma create_rejects_missing_field_witness :
  dict_get "gender" ann_without_gender = None /\
  post_create_user (VDict ann_without_gender) world_ann
  = (RequestValidationError, world_ann).
Proof.
  split; [ reflexivity | ].
  apply (create_rejects_missing_field (VDict ann_without_gender) world_ann).
  right. exists ann_without_gender, "gender".
  split; [ reflexivity | ]. split; [ | reflexivity ].
  cbn. tauto.
Defined.

(** ** Reading *)

(** X5: the list, get-by-email and root routes never write: the database
    and the identifier counter are the same after them, whatever they
    answer, and root does not even reach the store. *)
Theorem reads_leave_the_store (w : world) (email : string) :
  (mongodb (snd (get_read_all_users w)) = mongodb w /\
   next_oid (snd (get_read_all_users w)) = next_oid w) /\
  (mongodb (snd (get_read_user email w)) = mongodb w /\
   next_oid (snd (get_read_user email w)) = next_oid w) /\
  snd (get_root w) = w.
Proof.
  unfold get_read_all_users, get_root.
  rewrite !respond_world, get_read_user_world.
  destruct (path_segment email); repeat split; reflexivity.
Qed.

(** X6: on an email that is a path segment, get-by-email answers 404
    with detail "User Not Found" exactly when the email selects no stored
    record. *)
Theorem get_404_iff_unknown (w : world) (email : string) :
  path_segment email = true ->
  (fst (get_read_user email w) = not_found "User Not Found"
   <-> email_free email w = true).
Proof.
  intros Hseg. split.
  - rewrite (get_read_user_run _ _ Hseg).
    destruct (List.find _ (users w)) as [d | ] eqn:Hfind.
    + destruct (response_User (VDict d)); discriminate.
    + intros _. unfold email_free.
      clear -Hfind. induction (users w) as [ | x l IH ]; [ reflexivity | ].
      cbn [List.find forallb] in *.
      destruct (matches (by_email email) x); [ discriminate | ].
      now apply IH.
  - intros Hfree. apply (get_read_user_unknown _ _ Hseg).
    now apply find_none_forallb.
Qed.

Lemma get_404_iff_unknown_witness :
  path_segment "nobody@x.com" = true /\
  (fst (get_read_user "nobody@x.com" world_ann) = not_found "User Not Found"
   <-> email_free "nobody@x.com" world_ann = true).
Proof.
  split; [ reflexivity | ].
  exact (get_404_iff_unknown world_ann "nobody@x.com" eq_refl).
Defined.

Lemma find_app_some {A : Type} (p : A -> bool) (l l' : list A) (x : A) :
  List.find p l = Some x -> List.find p (l ++ l') = Some x.
Proof.
  induction l as [ | y l IH ]; cbn [List.find app]; [ discriminate | ].
  destruct (p y); [ trivial | exact IH ].
Qed.

(** X7: a create never changes what get-by-email answers for an email
    that already selects a record, also when the created user carries
    that very email: the older record keeps being the one returned. *)
Theorem create_keeps_older_answer (w : world) (u : User) (email : string)
  (r : document) :
  List.find (matches (by_email email)) (users w) = Some r ->
  fst (read_user_by_email email (snd (insert_user u w))) = Return (VDict r) /\
  fst (get_read_user email (snd (insert_user u w))) = fst (get_read_user email w).
Proof.
  intros Hfind.
  assert (Hafter : List.find (matches (by_email email))
                             (users (snd (insert_user u w))) = Some r).
  { rewrite users_after_insert. now apply find_app_some. }
  split; [ now rewrite read_user_by_email_run, Hafter | ].
  apply get_read_user_same_find. now rewrite Hafter, Hfind.
Qed.

Lemma create_keeps_older_answer_witness :
  fst (read_user_by_email "ann@x.com" (snd (insert_user bob world_ann)))
  = Return (VDict (stored 0 ann)).
Proof.
  exact (proj1 (create_keeps_older_answer world_ann bob "ann@x.com"
                  (stored 0 ann) eq_refl)).
Defined.

(** ** Deleting *)

Lemma delete_first_split (q : document) (docs : list document) (r : document) :
  List.find (matches q) docs = Some r ->
  exists l1 l2,
    docs = (l1 ++ r :: l2)%list /\
    List.find (matches q) l1 = None /\
    delete_first q docs = ((l1 ++ l2)%list, mkDeleteResult 1).
Proof.
  induction docs as [ | d docs IH ]; cbn [List.find delete_first];
    [ discriminate | ].
  destruct (matches q d) eqn:Hd; intros Hfind.
  - injection Hfind as ->. now exists [], docs.
  - destruct (IH Hfind) as (l1 & l2 & -> & Hnone & Hdel).
    exists (d :: l1), l2. split; [ reflexivity | ].
    split; [ cbn [List.find]; now rewrite Hd | ].
    now rewrite Hdel.
Qed.

(** X8: when the email is a path segment and selects a record, delete
    answers 200 with the success message and removes one record, the first
    the email selects; every other record stays, in its order. *)
Theorem delete_removes_first_selected (w : world) (email : string)
  (r : document) :
  path_segment email = true ->
  List.find (matches (by_email email)) (users w) = Some r ->
  fst (delete_delete_user email w) = JSONResponse 200 deleted_message /\
  exists l1 l2,
    users w = (l1 ++ r :: l2)%list /\
    List.find (matches (by_email email)) l1 = None /\
    users (snd (delete_delete_user email w)) = (l1 ++ l2)%list.
Proof.
  intros Hseg Hfind.
  destruct (delete_first_split (by_email email) (users w) r Hfind)
    as (l1 & l2 & Hsplit & Hnone & Hdel).
  split; [ rewrite delete_delete_user_response, Hseg, Hdel; reflexivity | ].
  exists l1, l2. split; [ exact Hsplit | ]. split; [ exact Hnone | ].
  rewrite delete_delete_user_world, Hseg, delete_user_users.
  now rewrite Hdel.
Qed.

Lemma delete_removes_first_selected_witness :
  fst (delete_delete_user "ann@x.com" world_ann_bob)
  = JSONResponse 200 deleted_message /\
  exists l1 l2,
    users world_ann_bob = (l1 ++ stored 0 ann :: l2)%list /\
    List.find (matches (by_email "ann@x.com")) l1 = None /\
    users (snd (delete_delete_user "ann@x.com" world_ann_bob)) = (l1 ++ l2)%list.
Proof.
  exact (delete_removes_first_selected world_ann_bob "ann@x.com" (stored 0 ann)
           eq_refl eq_refl).
Defined.

Lemma delete_user_unknown_mongodb (email : string) (w : world) :
  List.find (matches (by_email email)) (users w) = None ->
  mongodb (snd (delete_user_by_email email w)) = mongodb w.
Proof.
  intros Hnone.
  pose proof (delete_first_no_match (by_email email) (users w) Hnone) as Hdel.
  unfold delete_user_by_email, bind, delete_one, raise, ret.
  unfold users, collection in Hdel. fold (by_email email).
  destruct (mongodb w !! "users") as [docs | ] eqn:Hdocs;
    cbn [from_option id] in Hdel.
  - rewrite Hdel. cbn [deleted_count Z.eqb snd mongodb]. now apply insert_id.
  - reflexivity.
Qed.

(** X9: when the email selects no record, the delete handler raises the
    404 with detail "User Not Found", which is the response when the
    email is a path segment, and the database is exactly as before. *)
Theorem delete_unknown_email (w : world) (email : string) :
  email_free email w = true ->
  fst (delete_user_by_email email w) = Raise (HTTPException 404 "User Not Found") /\
  (path_segment email = true ->
   fst (delete_delete_user email w) = not_found "User Not Found") /\
  mongodb (snd (delete_delete_user email w)) = mongodb w.
Proof.
  intros Hfree. apply find_none_forallb in Hfree.
  pose proof (delete_first_no_match (by_email email) (users w) Hfree) as Hdel.
  split; [ rewrite delete_user_outcome, Hdel; reflexivity | ].
  rewrite delete_delete_user_response, delete_delete_user_world, Hdel.
  cbn [snd deleted_count Z.eqb].
  destruct (path_segment email).
  - repeat split; try reflexivity. now apply delete_user_unknown_mongodb.
  - repeat split; try reflexivity. discriminate.
Qed.

Lemma delete_unknown_email_witness :
  email_free "nobody@x.com" world_ann = true /\
  fst (delete_delete_user "nobody@x.com" world_ann) = not_found "User Not Found" /\
  mongodb (snd (delete_delete_user "nobody@x.com" world_ann)) = mongodb world_ann.
Proof.
  split; [ reflexivity | ].
  destruct (delete_unknown_email world_ann "nobody@x.com" eq_refl)
    as (_ & Hresp & Hdb).
  split; [ exact (Hresp eq_refl) | exact Hdb ].
Defined.

(** ** Updating *)

(** A store that reports a modified record has changed the collection. *)
Lemma update_first_modified (q u : document) (docs : list document) :
  modified_count (snd (update_first q u docs)) <> 0 ->
  fst (update_first q u docs) <> docs.
Proof.
  induction docs as [ | d docs IH ]; cbn [update_first];
    [ intros H; now destruct H | ].
  destruct (matches q d).
  - cbn [fst snd modified_count].
    destruct (document_eqb (apply_update u d) d) eqn:E;
      [ intros H; now destruct H | ].
    intros _ Heq. injection Heq as Heq.
    rewrite Heq, document_eqb_refl in E. discriminate E.
  - destruct (update_first q u docs) as [rest' r]. cbn [fst snd] in *.
    intros H Heq. injection Heq as Heq. now apply (IH H).
Qed.

(** X10: the update handler leaves the users collection as it was exactly
    when it raises, be it the 404 (an unknown email and a patch that
    changes nothing are not told apart) or the driver's overflow error;
    when it returns, the collection has changed. *)
Theorem update_unchanged_iff_raises (w : world) (email : string)
  (p : UpdateUserDTO) :
  users (snd (update_user email p w)) = users w
  <-> (fst (update_user email p w)
       = Raise (HTTPException 404 "User not found or no update needed")
       \/ fst (update_user email p w) = Raise OverflowError).
Proof.
  destruct (age_fits p) eqn:Hfits.
  - rewrite (update_user_outcome _ _ _ Hfits), (update_user_users _ _ _ Hfits).
    unfold update_result. destruct (modified_count _ =? 0) eqn:E.
    + apply Z.eqb_eq in E. split; [ now left | intros _ ].
      now apply update_first_zero_modified.
    + apply Z.eqb_neq in E. split.
      * intros Hsame. now destruct (update_first_modified _ _ _ E).
      * intros [H | H]; discriminate H.
  - destruct (update_user_overflow email p w Hfits) as (Hraise & Hdb & _).
    split; [ now right | intros _ ]. now apply users_same_mongodb.
Qed.

Lemma update_first_split (q u : document) (docs : list document) (r : document) :
  List.find (matches q) docs = Some r ->
  exists l1 l2,
    docs = (l1 ++ r :: l2)%list /\
    List.find (matches q) l1 = None /\
    fst (update_first q u docs) = (l1 ++ apply_update u r :: l2)%list.
Proof.
  induction docs as [ | d docs IH ]; cbn [List.find update_first];
    [ discriminate | ].
  destruct (matches q d) eqn:Hd; intros Hfind.
  - injection Hfind as ->. now exists [], docs.
  - destruct (IH Hfind) as (l1 & l2 & -> & Hnone & Hupd).
    exists (d :: l1), l2. split; [ reflexivity | ].
    split; [ cbn [List.find]; now rewrite Hd | ].
    destruct (update_first q u (l1 ++ r :: l2)) as [rest' res].
    cbn [fst] in *. now rewrite Hupd.
Qed.

Lemma apply_update_set_fields (p : UpdateUserDTO) (r : document) :
  apply_update (set_fields p) r = apply_set (model_dump_exclude_unset p) r.
Proof. reflexivity. Qed.

(** X11: an update whose patch the driver can encode (its age, when
    set, fits in 64 bits) writes to one record at most, the first the
    email selects, which gets the set fields of the patch; the records
    before and after it are kept as they are, also those with the same
    email. *)
Theorem update_touches_first_selected (w : world) (email : string)
  (p : UpdateUserDTO) (r : document) :
  List.find (matches (by_email email)) (users w) = Some r ->
  age_fits p = true ->
  exists l1 l2,
    users w = (l1 ++ r :: l2)%list /\
    List.find (matches (by_email email)) l1 = None /\
    users (snd (update_user email p w))
    = (l1 ++ apply_set (model_dump_exclude_unset p) r :: l2)%list.
Proof.
  intros Hfind Hfits.
  destruct (update_first_split (by_email email) (set_fields p) (users w) r Hfind)
    as (l1 & l2 & Hsplit & Hnone & Hupd).
  exists l1, l2. split; [ exact Hsplit | ]. split; [ exact Hnone | ].
  now rewrite (update_user_users _ _ _ Hfits), Hupd, apply_update_set_fields.
Qed.

Lemma update_touches_first_selected_witness :
  exists l1 l2,
    users world_ann_bob = (l1 ++ stored 0 ann :: l2)%list /\
    List.find (matches (by_email "ann@x.com")) l1 = None /\
    users (snd (update_user "ann@x.com" age_30 world_ann_bob))
    = (l1 ++ apply_set (model_dump_exclude_unset age_30) (stored 0 ann) :: l2)%list.
Proof.
  exact (update_touches_first_selected world_ann_bob "ann@x.com" age_30
           (stored 0 ann) eq_refl eq_refl).
Defined.

(** The keys a patch sets are [other_names] and [age] and no other. *)
Lemma patch_keys (p : UpdateUserDTO) (k : string) (v : value) :
  In (k, v) (model_dump_exclude_unset p) -> k = "other_names" \/ k = "age".
Proof.
  unfold model_dump_exclude_unset.
  destruct (other_names p), (age p); cbn; intros H;
    repeat (destruct H as [[= <- <-] | H]; [ tauto | ]); destruct H.
Qed.

Lemma apply_set_other (fields r : document) (k : string) :
  (forall k' v, In (k', v) fields -> k' <> k) ->
  dict_get k (apply_set fields r) = dict_get k r.
Proof.
  unfold apply_set. revert r.
  induction fields as [ | [k' v] fields IH ]; intros r Hother; [ reflexivity | ].
  cbn [fold_left fst snd]. rewrite IH by (intros k0 v0 Hin; apply (Hother k0 v0); now right).
  apply dict_get_set_ne. intros ->. apply (Hother k' v); [ now left | reflexivity ].
Qed.

Lemma apply_patch_same (p : UpdateUserDTO) (r : document) :
  same_but_patch_keys r (apply_update (set_fields p) r).
Proof.
  intros k Hnames Hage. rewrite apply_update_set_fields.
  apply apply_set_other. intros k' v Hin ->.
  destruct (patch_keys p k v Hin); contradiction.
Qed.

Lemma update_first_same (q : document) (p : UpdateUserDTO) (docs : list document) :
  Forall2 same_but_patch_keys docs (fst (update_first q (set_fields p) docs)).
Proof.
  assert (Hrefl : forall l, Forall2 same_but_patch_keys l l).
  { induction l; constructor; [ now intros k _ _ | assumption ]. }
  induction docs as [ | d docs IH ]; cbn [update_first]; [ constructor | ].
  destruct (matches q d).
  - cbn [fst]. constructor; [ apply apply_patch_same | apply Hrefl ].
  - destruct (update_first q (set_fields p) docs) as [rest' r]. cbn [fst] in *.
    constructor; [ now intros k _ _ | exact IH ].
Qed.

Lemma same_matches_email (email : string) (r r' : document) :
  same_but_patch_keys r r' ->
  matches (by_email email) r' = matches (by_email email) r.
Proof.
  intros Hsame. unfold matches, by_email. cbn [forallb fst snd].
  now rewrite (Hsame "email_address") by discriminate.
Qed.

Lemma same_response_User (r r' : document) :
  same_but_patch_keys r r' ->
  response_User (VDict r') = response_User (VDict r).
Proof.
  intros Hsame. unfold response_User, User_validate, User_from.
  now rewrite !Hsame by discriminate.
Qed.

Lemma same_find (email : string) (l l' : list document) :
  Forall2 same_but_patch_keys l l' ->
  match List.find (matches (by_email email)) l,
        List.find (matches (by_email email)) l' with
  | Some r, Some r' => same_but_patch_keys r r'
  | None, None => True
  | _, _ => False
  end.
Proof.
  induction 1 as [ | r r' l l' Hsame _ IH ]; cbn [List.find]; [ exact I | ].
  rewrite (same_matches_email email r r' Hsame).
  destruct (matches (by_email email) r); [ exact Hsame | exact IH ].
Qed.

Lemma same_response_list (l l' : list document) :
  Forall2 same_but_patch_keys l l' ->
  validate_each response_User (map VDict l')
  = validate_each response_User (map VDict l).
Proof.
  induction 1 as [ | r r' l l' Hsame _ IH ]; [ reflexivity | ].
  cbn [map validate_each]. now rewrite (same_response_User r r' Hsame), IH.
Qed.

Lemma same_refl (l : list document) : Forall2 same_but_patch_keys l l.
Proof. induction l; constructor; [ now intros k _ _ | assumption ]. Qed.

(** Whether it writes, finds nothing to write or fails, an update leaves
    every record as it was up to the two keys of a patch. *)
Lemma update_user_same (email : string) (p : UpdateUserDTO) (w : world) :
  Forall2 same_but_patch_keys (users w) (users (snd (update_user email p w))).
Proof.
  destruct (age_fits p) eqn:Hfits.
  - rewrite (update_user_users _ _ _ Hfits). apply update_first_same.
  - destruct (update_user_overflow email p w Hfits) as (_ & Hdb & _).
    rewrite (users_same_mongodb _ _ Hdb). apply same_refl.
Qed.

Lemma put_update_user_same (email : string) (p : UpdateUserDTO) (w : world) :
  Forall2 same_but_patch_keys (users w) (users (snd (put_update_user email p w))).
Proof.
  rewrite put_update_user_world.
  destruct (path_segment email); [ apply update_user_same | apply same_refl ].
Qed.

Lemma get_read_user_same (email : string) (w w' : world) :
  Forall2 same_but_patch_keys (users w) (users w') ->
  fst (get_read_user email w') = fst (get_read_user email w).
Proof.
  intros Hsame. destruct (path_segment email) eqn:Hseg.
  - rewrite !(get_read_user_run _ _ Hseg).
    pose proof (same_find email _ _ Hsame) as Hfind.
    destruct (List.find _ (users w)) as [r | ],
             (List.find _ (users w')) as [r' | ];
      try contradiction; [ | reflexivity ].
    now rewrite (same_response_User r r' Hfind).
  - now rewrite !(get_read_user_off _ _ Hseg).
Qed.

(** X12: no update shows through the read routes: get-by-email, for any
    email, and list answer after an update what they answered before it,
    because a patch can only set [other_names] and [age], which are no
    fields of [User]. *)
Theorem update_invisible_to_reads (w : world) (email : string)
  (p : UpdateUserDTO) (email' : string) :
  fst (get_read_user email' (snd (put_update_user email p w)))
  = fst (get_read_user email' w) /\
  fst (get_read_all_users (snd (put_update_user email p w)))
  = fst (get_read_all_users w).
Proof.
  pose proof (put_update_user_same email p w) as Hsame. split.
  - now apply get_read_user_same.
  - rewrite !get_read_all_users_response.
    unfold response_List_User, validate_list.
    now rewrite (same_response_list _ _ Hsame).
Qed.

(** ** What every sequence of requests keeps *)

Lemma next_oid_after_insert (u : User) (w : world) :
  next_oid (snd (insert_user u w)) = N.succ (next_oid w).
Proof. now rewrite insert_user_run. Qed.

Lemma next_oid_after_update (email : string) (p : UpdateUserDTO) (w : world) :
  next_oid (snd (update_user email p w)) = next_oid w.
Proof.
  unfold update_user, bind, update_one, find_one, raise, ret.
  destruct (_ && _); [ | reflexivity ].
  destruct (mongodb w !! "users") as [docs | ]; [ | reflexivity ].
  destruct (update_first _ _ docs) as [docs' r].
  now destruct (modified_count r =? 0).
Qed.

Lemma next_oid_after_delete (email : string) (w : world) :
  next_oid (snd (delete_user_by_email email w)) = next_oid w.
Proof.
  unfold delete_user_by_email, bind, delete_one, raise, ret.
  destruct (mongodb w !! "users") as [docs | ]; [ | reflexivity ].
  destruct (delete_first _ docs) as [docs' r].
  now destruct (deleted_count r =? 0).
Qed.

Lemma well_stored_same_users (w w' : world) :
  users w' = users w -> next_oid w' = next_oid w ->
  well_stored w -> well_stored w'.
Proof. unfold well_stored. now intros -> ->. Qed.

Lemma well_stored_insert_user (u : User) (w : world) :
  well_stored w -> well_stored (snd (insert_user u w)).
Proof.
  intros (Hids & Hnodup & Hvalid). unfold well_stored.
  rewrite users_after_insert, next_oid_after_insert, map_app.
  split; [ | split ].
  - apply Forall_app. split.
    + apply (Forall_impl _ _ _ Hids). intros d (k & Hk & Hlt).
      exists k. split; [ exact Hk | lia ].
    + repeat constructor. exists (next_oid w). split; [ reflexivity | lia ].
  - apply NoDup_app. split; [ exact Hnodup | ]. split.
    + intros x Hx Hnew. apply list_elem_of_singleton in Hnew. subst x.
      apply list_elem_of_In, in_map_iff in Hx as (d & Hd & Hin).
      apply list_elem_of_In in Hin.
      rewrite Forall_forall in Hids. destruct (Hids d Hin) as (k & Hk & Hlt).
      rewrite Hk in Hd. injection Hd as ->. lia.
    + apply NoDup_singleton.
  - apply Forall_app. split; [ exact Hvalid | ].
    repeat constructor. exists u. apply User_validate_stored.
Qed.

Lemma same_User_validate (r r' : document) :
  same_but_patch_keys r r' ->
  User_validate (VDict r') = User_validate (VDict r).
Proof.
  intros Hsame. unfold User_validate, User_from.
  now rewrite !Hsame by discriminate.
Qed.

Lemma same_ids (l l' : list document) :
  Forall2 same_but_patch_keys l l' ->
  map (dict_get "_id") l' = map (dict_get "_id") l.
Proof.
  induction 1 as [ | r r' l l' Hr _ IH ]; [ reflexivity | ].
  cbn [map]. now rewrite IH, (Hr "_id") by discriminate.
Qed.

Lemma same_Forall (P : document -> Prop) (l l' : list document) :
  (forall r r', same_but_patch_keys r r' -> P r -> P r') ->
  Forall2 same_but_patch_keys l l' -> Forall P l -> Forall P l'.
Proof.
  intros HP. induction 1 as [ | r r' l l' Hr _ IH ]; [ constructor | ].
  intros [Hhead Htail]%Forall_cons. constructor; [ now apply (HP r) | now apply IH ].
Qed.

Lemma well_stored_update_user (email : string) (p : UpdateUserDTO) (w : world) :
  well_stored w -> well_stored (snd (update_user email p w)).
Proof.
  intros (Hids & Hnodup & Hvalid). unfold well_stored.
  rewrite next_oid_after_update.
  pose proof (update_user_same email p w) as Hsame.
  split; [ | split ].
  - refine (same_Forall _ _ _ _ Hsame Hids).
    intros r r' Hr (k & Hk & Hlt). exists k.
    now rewrite (Hr "_id") by discriminate.
  - now rewrite (same_ids _ _ Hsame).
  - refine (same_Forall _ _ _ _ Hsame Hvalid).
    intros r r' Hr (u & Hu). exists u.
    now rewrite (same_User_validate r r' Hr).
Qed.

Lemma well_stored_delete_user (email : string) (w : world) :
  well_stored w -> well_stored (snd (delete_user_by_email email w)).
Proof.
  intros Hw. destruct (List.find (matches (by_email email)) (users w))
    as [r | ] eqn:Hfind.
  - destruct (delete_first_split _ _ _ Hfind) as (l1 & l2 & Hsplit & _ & Hdel).
    destruct Hw as (Hids & Hnodup & Hvalid). unfold well_stored.
    rewrite next_oid_after_delete, delete_user_users, Hdel. cbn [fst].
    rewrite Hsplit in Hids, Hnodup, Hvalid.
    apply Forall_app in Hids as [Hids1 [_ Hids2]%Forall_cons].
    apply Forall_app in Hvalid as [Hvalid1 [_ Hvalid2]%Forall_cons].
    split; [ | split ].
    + apply Forall_app. now split.
    + rewrite map_app in *. cbn [map] in Hnodup.
      apply (sublist_NoDup _ _ Hnodup).
      apply sublist_app; [ reflexivity | ]. now apply sublist_cons.
    + apply Forall_app. now split.
  - apply (well_stored_same_users w); [ | apply next_oid_after_delete | exact Hw ].
    rewrite delete_user_users. now rewrite (delete_first_no_match _ _ Hfind).
Qed.

Lemma well_stored_serve (r : request) (w : world) :
  well_stored w -> well_stored (snd (serve r w)).
Proof.
  intros Hw. destruct r as [body | | email | email p | email | ]; cbn [serve].
  - unfold post_create_user. destruct (User_validate body) as [u | ];
      [ | exact Hw ].
    rewrite respond_world. now apply well_stored_insert_user.
  - unfold get_read_all_users. rewrite respond_world.
    now apply (well_stored_same_users w).
  - rewrite get_read_user_world.
    destruct (path_segment email); [ | exact Hw ].
    now apply (well_stored_same_users w).
  - rewrite put_update_user_world.
    destruct (path_segment email); [ | exact Hw ].
    now apply well_stored_update_user.
  - rewrite delete_delete_user_world.
    destruct (path_segment email); [ | exact Hw ].
    now apply well_stored_delete_user.
  - exact Hw.
Qed.

Lemma well_stored_empty (w : world) : users w = [] -> well_stored w.
Proof. intros Hempty. unfold well_stored. rewrite Hempty. repeat constructor. Qed.


(** X13: whatever requests are served, in whatever order, a users
    collection that starts empty (or well kept) stays well kept: every
    record has an [ObjectId] below the next one to be drawn, no
    identifier is shared by two records or given out again after a
    delete, and every record validates as a [User]. *)
Theorem requests_keep_well_stored (rs : list request) (w : world) :
  well_stored w -> well_stored (serve_all rs w).
Proof.
  revert w. induction rs as [ | r rs IH ]; intros w Hw; [ exact Hw | ].
  unfold serve_all. cbn [fold_left]. fold (serve_all rs).
  apply IH. now apply well_stored_serve.
Qed.

Lemma requests_keep_well_stored_witness :
  well_stored
    (serve_all [POST_create_user (VDict (model_dump ann));
                POST_create_user (VDict (model_dump bob));
                PUT_update_user "ann@x.com" age_30;
                DELETE_delete_user "ann@x.com";
                POST_create_user (VDict (model_dump eve))] empty_world).
Proof.
  apply (requests_keep_well_stored _ empty_world).
  apply well_stored_empty. reflexivity.
Defined.

Lemma response_list_of_users (docs : list document) :
  Forall (fun d => exists u, User_validate (VDict d) = Some u) docs ->
  exists l, validate_each response_User (map VDict docs) = Some l /\
            length l = length docs.
Proof.
  induction 1 as [ | d docs (u & Hu) _ (l & Hl & Hlen) ].
  - now exists [].
  - exists (VDict (model_dump u) :: l). cbn [map validate_each length].
    unfold response_User at 1. now rewrite Hu, Hl, Hlen.
Qed.

Lemma list_response_well_stored (w : world) :
  well_stored w ->
  exists l : list value,
    fst (get_read_all_users w) = JSONResponse 200 (VList l) /\
    length l = length (users w).
Proof.
  intros (_ & _ & Hvalid).
  destruct (response_list_of_users (users w) Hvalid) as (l & Hl & Hlen).
  exists l. split; [ | exact Hlen ].
  rewrite get_read_all_users_response. unfold response_List_User, validate_list.
  now rewrite Hl.
Qed.

(** X14: over a well-kept users collection the list route answers 200
    with one record for every stored document; it never fails on a record
    the service has stored, updated or left behind after a delete. *)
Theorem list_answers_every_record (rs : list request) (w : world) :
  well_stored w ->
  exists l : list value,
    fst (get_read_all_users (serve_all rs w)) = JSONResponse 200 (VList l) /\
    length l = length (users (serve_all rs w)).
Proof.
  intros Hw. apply list_response_well_stored.
  revert w Hw. induction rs as [ | r rs IH ]; intros w Hw; [ exact Hw | ].
  unfold serve_all. cbn [fold_left]. fold (serve_all rs).
  apply IH. now apply well_stored_serve.
Qed.

Lemma well_stored_world_ann_30 : well_stored world_ann_30.
Proof.
  apply well_stored_update_user, well_stored_insert_user, well_stored_empty.
  reflexivity.
Qed.

Lemma list_answers_every_record_witness :
  exists l : list value,
    fst (get_read_all_users
           (serve_all [DELETE_delete_user "eve@x.com"; GET_root] world_ann_30))
    = JSONResponse 200 (VList l) /\
    length l
    = length (users (serve_all [DELETE_delete_user "eve@x.com"; GET_root]
                               world_ann_30)).
Proof.
  exact (list_answers_every_record [DELETE_delete_user "eve@x.com"; GET_root]
           world_ann_30 well_stored_world_ann_30).
Defined.





(** ** How the operations compose *)

Lemma patch_fields_stored (p : UpdateUserDTO) (r : document) (k : string)
  (v : value) :
  In (k, v) (model_dump_exclude_unset p) ->
  dict_get k (apply_set (model_dump_exclude_unset p) r) = Some v.
Proof.
  unfold model_dump_exclude_unset, apply_set.
  destruct (other_names p) as [l | ], (age p) as [a | ];
    cbn [app fold_left fst snd In]; intros H;
    repeat (destruct H as [[= <- <-] | H]); try destruct H.
  - rewrite dict_get_set_ne by discriminate. apply dict_get_set_eq.
  - apply dict_get_set_eq.
  - apply dict_get_set_eq.
  - apply dict_get_set_eq.
Qed.

(** X16: an update whose patch the driver can encode, sent a second
    time, always raises the 404 in the handler, which is the response
    when the email is a path segment: either the email is still unknown,
    or the record already holds what the patch sets. *)
Theorem update_repeated_answers_404 (w : world) (email : string)
  (p : UpdateUserDTO) :
  age_fits p = true ->
  fst (update_user email p (snd (update_user email p w)))
  = Raise (HTTPException 404 "User not found or no update needed") /\
  (path_segment email = true ->
   fst (put_update_user email p (snd (put_update_user email p w)))
   = not_found "User not found or no update needed").
Proof.
  intros Hfits.
  assert (Hmod : modified_count (update_result email p (snd (update_user email p w)))
                 = 0).
  { unfold update_result. rewrite (update_user_users _ _ _ Hfits).
    destruct (List.find (matches (by_email email)) (users w)) as [r | ] eqn:Hfind.
    - destruct (update_first_split _ (set_fields p) _ _ Hfind)
        as (l1 & l2 & _ & Hnone & ->).
      rewrite (update_first_unchanged _ _ _ (apply_update (set_fields p) r));
        [ reflexivity | | ].
      + rewrite (find_app_none _ _ _ Hnone). cbn [List.find].
        rewrite (same_matches_email email r _ (apply_patch_same p r)).
        apply find_some in Hfind as [_ ->]. reflexivity.
      + rewrite !apply_update_set_fields. apply apply_set_stored.
        intros k v Hin. now apply patch_fields_stored.
    - rewrite (update_first_no_match _ _ _ Hfind). cbn [fst].
      now rewrite (update_first_no_match _ _ _ Hfind). }
  split; [ now rewrite (update_user_outcome _ _ _ Hfits), Hmod | ].
  rewrite put_update_user_response, put_update_user_world, Hfits.
  destruct (path_segment email); [ now rewrite Hmod | discriminate ].
Qed.

Lemma update_repeated_answers_404_witness :
  age_fits age_30 = true /\
  fst (put_update_user "ann@x.com" age_30
         (snd (put_update_user "ann@x.com" age_30 world_ann)))
  = not_found "User not found or no update needed".
Proof.
  split; [ reflexivity | ].
  destruct (update_repeated_answers_404 world_ann "ann@x.com" age_30 eq_refl)
    as (_ & Hresp).
  exact (Hresp eq_refl).
Defined.

Lemma delete_first_last (q : document) (l : list document) (d : document) :
  List.find (matches q) l = None ->
  matches q d = true ->
  delete_first q (l ++ [d]) = (l, mkDeleteResult 1).
Proof.
  intros Hnone Hd. induction l as [ | x l IH ]; cbn [app delete_first].
  - now rewrite Hd.
  - cbn [List.find] in Hnone. destruct (matches q x); [ discriminate | ].
    now rewrite (IH Hnone).
Qed.

(** X17: creating a user under an email that is a path segment and not
    yet in use, and then deleting that email, answers 200 and gives back
    the users collection as it was before the create; the identifier
    drawn for the create is not given out again. *)
Theorem create_then_delete_restores (w : world) (u : User) :
  path_segment (email_address u) = true ->
  email_free (email_address u) w = true ->
  fst (delete_delete_user (email_address u) (snd (insert_user u w)))
  = JSONResponse 200 deleted_message /\
  users (snd (delete_delete_user (email_address u) (snd (insert_user u w))))
  = users w /\
  next_oid (snd (delete_delete_user (email_address u) (snd (insert_user u w))))
  = N.succ (next_oid w).
Proof.
  intros Hseg Hfree. apply find_none_forallb in Hfree.
  pose proof (delete_first_last _ _ _ Hfree
                (matches_email_stored (next_oid w) u)) as Hdel.
  rewrite <- users_after_insert in Hdel.
  split; [ rewrite delete_delete_user_response, Hseg, Hdel; reflexivity | ].
  rewrite delete_delete_user_world, Hseg.
  split; [ rewrite delete_user_users, Hdel; reflexivity | ].
  now rewrite next_oid_after_delete, next_oid_after_insert.
Qed.

Lemma create_then_delete_restores_witness :
  path_segment (email_address eve) = true /\
  email_free (email_address eve) world_ann = true /\
  users (snd (delete_delete_user "eve@x.com" (snd (insert_user eve world_ann))))
  = users world_ann.
Proof.
  split; [ reflexivity | ]. split; [ reflexivity | ].
  exact (proj1 (proj2 (create_then_delete_restores world_ann eve eq_refl eq_refl))).
Defined.

Lemma find_without (p q : document -> bool) (l1 l2 : list document)
  (r r' : document) :
  List.find p (l1 ++ r :: l2) = Some r' ->
  q r = true -> q r' = false ->
  List.find p (l1 ++ l2) = Some r'.
Proof.
  intros Hfind Hr Hr'. induction l1 as [ | x l1 IH ]; cbn [app List.find] in *.
  - destruct (p r); [ | exact Hfind ].
    injection Hfind as ->. congruence.
  - destruct (p x); [ exact Hfind | now apply IH ].
Qed.

(** X18: a delete by one email leaves get-by-email's answer for any other
    email whose record the deleted email does not select. *)
Theorem delete_keeps_other_answers (w : world) (email email' : string)
  (r' : document) :
  List.find (matches (by_email email')) (users w) = Some r' ->
  matches (by_email email) r' = false ->
  fst (read_user_by_email email' (snd (delete_delete_user email w)))
  = Return (VDict r') /\
  fst (get_read_user email' (snd (delete_delete_user email w)))
  = fst (get_read_user email' w).
Proof.
  intros Hfind' Hother.
  assert (Hafter : List.find (matches (by_email email'))
                     (users (snd (delete_delete_user email w))) = Some r').
  { rewrite delete_delete_user_world.
    destruct (path_segment email); [ | exact Hfind' ].
    rewrite delete_user_users.
    destruct (List.find (matches (by_email email)) (users w)) as [r | ] eqn:Hfind.
    - destruct (delete_first_split _ _ _ Hfind) as (l1 & l2 & Hsplit & _ & ->).
      cbn [fst]. rewrite Hsplit in Hfind'.
      apply find_some in Hfind as [_ Hr].
      exact (find_without _ _ _ _ _ _ Hfind' Hr Hother).
    - now rewrite (delete_first_no_match _ _ Hfind). }
  split; [ now rewrite read_user_by_email_run, Hafter | ].
  apply get_read_user_same_find. now rewrite Hafter, Hfind'.
Qed.

Lemma delete_keeps_other_answers_witness :
  fst (read_user_by_email "eve@x.com"
         (snd (delete_delete_user "ann@x.com" world_ann_eve)))
  = Return (VDict (stored 1 eve)).
Proof.
  exact (proj1 (delete_keeps_other_answers world_ann_eve "ann@x.com" "eve@x.com"
                  (stored 1 eve) eq_refl eq_refl)).
Defined.
